(** * Wavetable wrappers of [lib/table.py]

    A shallow embedding of the Python classes [HarmTable], [HannTable],
    [LinTable], [SndTable] and [TableRec].  Every class is a thin wrapper
    that keeps a few attributes and a list [_base_objs] of per-channel
    objects imported from [_core]; the wrappers are embedded from their
    Python text, the [_core] objects from the design document.

    Python [int] is [Z], Python [float] is taken as an ideal real number
    ([R]), a Python list is a [list], [None]-able arguments are [option]s.
    A method is a function from the receiver to the receiver after the call
    paired with the outcome of the call, so that an attribute assigned
    before an exception is raised stays assigned. *)

From Stdlib Require Import ZArith List Reals Lra Lia String.
From stdpp Require Import base option list gmap.

Import ListNotations.
Local Open Scope Z_scope.

(** ** Exceptions and method outcomes *)

Inductive exn : Type :=
| ConfigurationError
| ResourceError
| ZeroDivisionError
| IndexError.

Inductive result (A : Type) : Type :=
| Ok (a : A)
| Raise (e : exn).

Arguments Ok {A} a.
Arguments Raise {A} e.

(** [None], the value of a Python call that returns nothing. *)
Abbreviation NoneType := unit (only parsing).
Abbreviation PyNone := tt (only parsing).

(** A method of a class with instances in [S]: the receiver after the call
    and what the call gave back. *)
Definition method (S A : Type) : Type := S -> S * result A.

Definition mret {S A} (a : A) : method S A := fun s => (s, Ok a).

Definition mraise {S A} (e : exn) : method S A := fun s => (s, Raise e).

Definition mbind {S A B} (m : method S A) (k : A -> method S B) : method S B :=
  fun s =>
    match m s with
    | (s', Ok a) => k a s'
    | (s', Raise e) => (s', Raise e)
    end.

Notation "m ;;; k" := (mbind m (fun _ => k))
  (at level 60, right associativity).

(** The comprehension [[obj.m(i, ...) for i, obj in enumerate(objs)]] over
    objects mutated in place: the calls run from left to right, the first
    exception stops the loop, and the objects not yet reached keep their
    state. *)
Fixpoint for_each_enum {B} (f : Z -> B -> result B) (i : Z) (objs : list B)
  : list B * result NoneType :=
  match objs with
  | [] => ([], Ok PyNone)
  | obj :: rest =>
      match f i obj with
      | Raise e => (obj :: rest, Raise e)
      | Ok obj' =>
          let (rest', r) := for_each_enum f (i + 1) rest in
          (obj' :: rest', r)
      end
  end.

(** [[obj.m(...) for obj in objs]]. *)
Definition for_each {B} (f : B -> result B) (objs : list B)
  : list B * result NoneType :=
  for_each_enum (fun _ => f) 0 objs.

(** [range(n)] *)
Definition range (n : Z) : list Z := map Z.of_nat (seq 0 (Z.to_nat n)).

(** The sample of a buffer at index [j], for [j] from 0 to the length of
    the buffer excluded. *)
Definition sample_at (buf : list R) (j : Z) : option R :=
  if j <? 0 then None else buf !! Z.to_nat j.

(** ** HarmTable *)

Module HarmTable.

(** Modelled from the spec: [HarmTable_base], the per-channel object of
    [_core] that owns the buffer.  Sample [i] is the sum over [k] of
    [weights[k] * sin(2*pi*(k+1)*i/size)]; the whole buffer is then divided
    by its largest absolute value unless that value is 0; a size [<= 0] is a
    [ConfigurationError]. *)
Record HarmTable_base : Type := mkBase {
  base_list : list R;
  base_size : Z;
  base_data : list R
}.

(** Modelled from the spec: the sum of [HarmTable_base] at sample [i], over
    the weights from partial number [k + 1] on. *)
Fixpoint harm_sum (weights : list R) (k : Z) (size i : Z) : R :=
  match weights with
  | [] => 0%R
  | w :: ws =>
      (w * sin (2 * PI * IZR (k + 1) * IZR i / IZR size)
       + harm_sum ws (k + 1) size i)%R
  end.

(** Modelled from the spec: the buffer of [HarmTable_base] after the
    summation, before the normalization. *)
Definition raw (weights : list R) (size : Z) : list R :=
  map (harm_sum weights 0 size) (range size).

(** Modelled from the spec: [max(|value|)] over a buffer, 0 for an empty
    one. *)
Definition peak (buf : list R) : R :=
  fold_right (fun v m => Rmax (Rabs v) m) 0%R buf.

(** Modelled from the spec: the peak normalization of [HarmTable_base]; a
    buffer of peak 0 is left as it is. *)
Definition normalize (buf : list R) : list R :=
  let m := peak buf in
  if Req_dec_T m 0 then buf else map (fun v => (v / m)%R) buf.

(** Modelled from the spec: the waveform that [HarmTable_base] draws. *)
Definition generate (weights : list R) (size : Z) : list R :=
  normalize (raw weights size).

(** Modelled from the spec: [HarmTable_base(list, size)]. *)
Definition HarmTable_base_new (lst : list R) (size : Z) : result HarmTable_base :=
  if size <=? 0 then Raise ConfigurationError
  else Ok (mkBase lst size (generate lst size)).

(** Modelled from the spec: [setSize] of [HarmTable_base], which draws the
    stored weights again at the new size. *)
Definition base_setSize (size : Z) (b : HarmTable_base) : result HarmTable_base :=
  if size <=? 0 then Raise ConfigurationError
  else Ok (mkBase (base_list b) size (generate (base_list b) size)).

(** Modelled from the spec: [replace] of [HarmTable_base].  A weight that is
    not finite would be refused; a real number always is. *)
Definition base_replace (lst : list R) (b : HarmTable_base) : result HarmTable_base :=
  Ok (mkBase lst (base_size b) (generate lst (base_size b))).

(** The wrapper class. *)
Record HarmTable : Type := mk {
  _list : list R;
  _size : Z;
  _base_objs : list HarmTable_base
}.

Definition set_list (lst : list R) : method HarmTable NoneType :=
  fun self => (mk lst (_size self) (_base_objs self), Ok PyNone).

Definition set_size (size : Z) : method HarmTable NoneType :=
  fun self => (mk (_list self) size (_base_objs self), Ok PyNone).

Definition each_base (f : HarmTable_base -> result HarmTable_base)
  : method HarmTable NoneType :=
  fun self =>
    let (objs, r) := for_each f (_base_objs self) in
    (mk (_list self) (_size self) objs, r).

(** [__init__(self, list=[1.], size=8192)] *)
Definition __init__ (lst : list R) (size : Z) : result HarmTable :=
  match HarmTable_base_new lst size with
  | Raise e => Raise e
  | Ok b => Ok (mk lst size [b])
  end.

(** [setSize(self, size)] *)
Definition setSize (size : Z) : method HarmTable NoneType :=
  set_size size ;;; each_base (base_setSize size).

(** [replace(self, list)] *)
Definition replace (lst : list R) : method HarmTable NoneType :=
  set_list lst ;;; each_base (base_replace lst).

(** The [size] property. *)
Definition size (self : HarmTable) : Z := _size self.

(** The buffers of the table, one per channel. *)
Definition buffers (self : HarmTable) : list (list R) :=
  map base_data (_base_objs self).

(** [buf] is the peak-normalized waveform of [weights] at [size]: when the
    sum of sinusoids has a nonzero peak, [buf] is that sum with every sample
    divided by the peak, and the peak of [buf] is 1; when the sum has peak 0
    it is left as it is; with no weight, or only zero weights, [buf] is
    [size] samples of silence. *)
Definition peak_normalized (weights : list R) (size : Z) (buf : list R) : Prop :=
  let unscaled := raw weights size in
  (peak unscaled <> 0%R ->
     buf = map (fun v => (v / peak unscaled)%R) unscaled /\ peak buf = 1%R)
  /\ (peak unscaled = 0%R -> buf = unscaled)
  /\ (weights = [] \/ Forall (eq 0%R) weights ->
      length buf = Z.to_nat size /\ Forall (eq 0%R) buf).

(** [HarmTable([1.], 8)] *)
Definition table8 : HarmTable :=
  mk [1%R] 8 [mkBase [1%R] 8 (generate [1%R] 8)].

(** A failed [setSize(n)] that leaves the table as it was: the call raises
    [ConfigurationError] and the buffers and the size are those of before
    the call. *)
Definition setSize_fails_cleanly (n : Z) (self : HarmTable) : Prop :=
  snd (setSize n self) = Raise ConfigurationError
  /\ buffers (fst (setSize n self)) = buffers self
  /\ size (fst (setSize n self)) = size self.

End HarmTable.

(** ** HannTable *)

Module HannTable.

(** Modelled from the spec: [HannTable_base] of [_core].  For a size of at
    least 2, sample [i] is [0.5 - 0.5*cos(2*pi*i/(size-1))]; a table of size
    1 holds the single value 1; a size [<= 0] is a [ConfigurationError]. *)
Record HannTable_base : Type := mkBase {
  base_size : Z;
  base_data : list R
}.

(** Modelled from the spec: the window that [HannTable_base] draws. *)
Definition hann (size : Z) : list R :=
  if size =? 1 then [1%R]
  else map (fun i => (0.5 - 0.5 * cos (2 * PI * IZR i / IZR (size - 1)))%R)
           (range size).

(** Modelled from the spec: [HannTable_base(size)]. *)
Definition HannTable_base_new (size : Z) : result HannTable_base :=
  if size <=? 0 then Raise ConfigurationError
  else Ok (mkBase size (hann size)).

(** Modelled from the spec: [setSize] of [HannTable_base]. *)
Definition base_setSize (size : Z) (b : HannTable_base) : result HannTable_base :=
  if size <=? 0 then Raise ConfigurationError
  else Ok (mkBase size (hann size)).

(** The wrapper class. *)
Record HannTable : Type := mk {
  _size : Z;
  _base_objs : list HannTable_base
}.

Definition set_size (size : Z) : method HannTable NoneType :=
  fun self => (mk size (_base_objs self), Ok PyNone).

Definition each_base (f : HannTable_base -> result HannTable_base)
  : method HannTable NoneType :=
  fun self =>
    let (objs, r) := for_each f (_base_objs self) in
    (mk (_size self) objs, r).

(** [__init__(self, size=8192)] *)
Definition __init__ (size : Z) : result HannTable :=
  match HannTable_base_new size with
  | Raise e => Raise e
  | Ok b => Ok (mk size [b])
  end.

(** [setSize(self, size)] *)
Definition setSize (size : Z) : method HannTable NoneType :=
  set_size size ;;; each_base (base_setSize size).

Definition size (self : HannTable) : Z := _size self.

Definition buffers (self : HannTable) : list (list R) :=
  map base_data (_base_objs self).

End HannTable.

(** ** LinTable *)

Module LinTable.

(** A breakpoint [(location, value)]. *)
Definition point : Type := Z * R.

Definition locations (pts : list point) : list Z := map fst pts.

Fixpoint increasing_from (prev : Z) (locs : list Z) : bool :=
  match locs with
  | [] => true
  | l :: rest => (prev <? l) && increasing_from l rest
  end.

Definition strictly_increasing (locs : list Z) : bool :=
  match locs with
  | [] => true
  | l :: rest => increasing_from l rest
  end.

Definition in_range (size l : Z) : bool := (0 <=? l) && (l <=? size - 1).

(** Modelled from the spec: the check of the points by [LinTable_base]:
    locations strictly increasing and within [0, size-1]. *)
Definition valid_points (pts : list point) (size : Z) : bool :=
  forallb (in_range size) (locations pts)
  && strictly_increasing (locations pts).

Definition last_location (pts : list point) : option Z :=
  last (locations pts).

(** Modelled from the spec: the line between two points at index [i],
    [val0 + (val1 - val0)*(i - loc0)/(loc1 - loc0)]. *)
Definition interp (p0 p1 : point) (i : Z) : R :=
  (snd p0 + (snd p1 - snd p0) * IZR (i - fst p0) / IZR (fst p1 - fst p0))%R.

(** Modelled from the spec: the value that [LinTable_base] draws at an
    index [i] that is not before [p0]: the line of the first segment that
    reaches [i], or 0 past the last point. *)
Fixpoint segment_sample (p0 : point) (rest : list point) (i : Z) : R :=
  match rest with
  | [] => if i =? fst p0 then snd p0 else 0%R
  | p1 :: rest' =>
      if i <=? fst p1 then interp p0 p1 i else segment_sample p1 rest' i
  end.

(** Modelled from the spec: the value that [LinTable_base] draws at index
    [i]; the first value is held before the first point. *)
Definition lin_sample (pts : list point) (i : Z) : R :=
  match pts with
  | [] => 0%R
  | p0 :: rest => if i <? fst p0 then snd p0 else segment_sample p0 rest i
  end.

(** Modelled from the spec: the buffer that [LinTable_base] draws. *)
Definition render (pts : list point) (size : Z) : list R :=
  map (lin_sample pts) (range size).

(** Modelled from the spec: [LinTable_base], the per-channel object of
    [_core] that keeps the points and owns the buffer.  Between two
    consecutive points the buffer follows the straight line through them,
    before the first point it holds the first value, after the last point it
    is 0 (written here sample by sample; an empty list of points gives
    silence); locations that are not strictly increasing or not within
    [0, size-1], and a size [<= 0], are a [ConfigurationError]. *)
Record LinTable_base : Type := mkBase {
  base_points : list point;
  base_size : Z;
  base_data : list R
}.

(** Modelled from the spec: [LinTable_base(list, size)]. *)
Definition LinTable_base_new (lst : list point) (size : Z) : result LinTable_base :=
  if size <=? 0 then Raise ConfigurationError
  else if valid_points lst size then Ok (mkBase lst size (render lst size))
  else Raise ConfigurationError.

(** Modelled from the spec: [replace] of [LinTable_base]. *)
Definition base_replace (lst : list point) (b : LinTable_base) : result LinTable_base :=
  if valid_points lst (base_size b)
  then Ok (mkBase lst (base_size b) (render lst (base_size b)))
  else Raise ConfigurationError.

(** The wrapper class.  [__init__] does not assign [_list]; [replace] does. *)
Record LinTable : Type := mk {
  _list : option (list point);
  _size : Z;
  _base_objs : list LinTable_base
}.

Definition set_list (lst : list point) : method LinTable NoneType :=
  fun self => (mk (Some lst) (_size self) (_base_objs self), Ok PyNone).

Definition set_size (size : Z) : method LinTable NoneType :=
  fun self => (mk (_list self) size (_base_objs self), Ok PyNone).

Definition each_base (f : LinTable_base -> result LinTable_base)
  : method LinTable NoneType :=
  fun self =>
    let (objs, r) := for_each f (_base_objs self) in
    (mk (_list self) (_size self) objs, r).

(** [__init__(self, list=[(0, 0.), (8191, 1.)], size=8192)] *)
Definition __init__ (lst : list point) (size : Z) : result LinTable :=
  match LinTable_base_new lst size with
  | Raise e => Raise e
  | Ok b => Ok (mk None size [b])
  end.

(** [replace(self, list)] *)
Definition replace (lst : list point) : method LinTable NoneType :=
  set_list lst ;;; each_base (base_replace lst).

(** [getPoints(self)] *)
Definition getPoints : method LinTable (list point) :=
  fun self =>
    match _base_objs self with
    | [] => (self, Raise IndexError)
    | b :: _ => (self, Ok (base_points b))
    end.

Definition size (self : LinTable) : Z := _size self.

Definition buffers (self : LinTable) : list (list R) :=
  map base_data (_base_objs self).

Section Resize.

(** What the per-channel object of [_core] does with its stored locations
    when the size changes is not visible from the wrapper: its docstring
    says [setSize] will "rescale the envelope", the design document that the
    locations are kept as they are.  It is left open here:
    [resize_points old new pts] are the points drawn at the new size [new]
    by a table of size [old] that holds [pts]. *)
Variable resize_points : Z -> Z -> list point -> list point.

(** Modelled from the spec: [setSize] of [LinTable_base], which refuses a
    size [<= 0] and draws [resize_points] of its points at the new size. *)
Definition base_setSize (size : Z) (b : LinTable_base) : result LinTable_base :=
  if size <=? 0 then Raise ConfigurationError
  else
    let pts := resize_points (base_size b) size (base_points b) in
    if valid_points pts size then Ok (mkBase pts size (render pts size))
    else Raise ConfigurationError.

(** [setSize(self, size)] *)
Definition setSize (size : Z) : method LinTable NoneType :=
  set_size size ;;; each_base (base_setSize size).

End Resize.

End LinTable.

(** ** SndTable *)

Module SndTable.

(** A decoded sound file: its sample rate and its channels, each a sequence
    of [sf_frames] samples. *)
Record soundfile : Type := mkFile {
  sf_frames : Z;
  sf_sr : R;
  sf_channels : list (list R)
}.

Definition sf_chnls (f : soundfile) : Z := Z.of_nat (length (sf_channels f)).

(** Modelled from the spec: [SndTable_base], the per-channel object of
    [_core].  It is filled from one channel of a file and remembers the
    frame count and the sample rate of that file; [getRate] is the sample
    rate divided by the size; a file that cannot be decoded, or a channel
    the file does not have, is a [ResourceError]. *)
Record SndTable_base : Type := mkBase {
  base_path : string;
  base_chnl : Z;
  base_size : Z;
  base_sr : R;
  base_data : list R
}.

(** Modelled from the spec: [getRate] of [SndTable_base]. *)
Definition base_getRate (b : SndTable_base) : R :=
  (base_sr b / IZR (base_size b))%R.

(** Modelled from the spec: [getSize] of [SndTable_base]. *)
Definition base_getSize (b : SndTable_base) : Z := base_size b.

(** The wrapper class. *)
Record SndTable : Type := mk {
  _size : Z;
  _snd_sr : R;
  _snd_chnls : Z;
  _base_objs : list SndTable_base
}.

Section Files.

(** The sound files on disk, by path. *)
Variable fs : string -> option soundfile.

(** Modelled from the spec: [sndinfo(path)] of [_core], the frame count,
    sample rate and channel count of the file, or a [ResourceError]. *)
Definition sndinfo (path : string) : result (Z * R * Z) :=
  match fs path with
  | None => Raise ResourceError
  | Some f => Ok (sf_frames f, sf_sr f, sf_chnls f)
  end.

(** Modelled from the spec: [SndTable_base(path, chnl)]. *)
Definition SndTable_base_new (path : string) (chnl : Z) : result SndTable_base :=
  match fs path with
  | None => Raise ResourceError
  | Some f =>
      if chnl <? 0 then Raise ResourceError
      else match sf_channels f !! Z.to_nat chnl with
           | None => Raise ResourceError
           | Some d => Ok (mkBase path chnl (sf_frames f) (sf_sr f) d)
           end
  end.

(** Modelled from the spec: [setSound(path, chnl)] of [SndTable_base],
    which fills the object again as a new one would be. *)
Definition base_setSound (path : string) (chnl : Z) (b : SndTable_base)
  : result SndTable_base :=
  SndTable_base_new path chnl.

(** [[SndTable_base(path, i) for i in chnls]] *)
Fixpoint new_bases (path : string) (chnls : list Z) : result (list SndTable_base) :=
  match chnls with
  | [] => Ok []
  | i :: rest =>
      match SndTable_base_new path i with
      | Raise e => Raise e
      | Ok b =>
          match new_bases path rest with
          | Raise e => Raise e
          | Ok bs => Ok (b :: bs)
          end
      end
  end.

(** [__init__(self, path, chnl=None)] *)
Definition __init__ (path : string) (chnl : option Z) : result SndTable :=
  match sndinfo path with
  | Raise e => Raise e
  | Ok (size, snd_sr, snd_chnls) =>
      match new_bases path
              (match chnl with
               | None => range snd_chnls
               | Some c => [c]
               end) with
      | Raise e => Raise e
      | Ok bs => Ok (mk size snd_sr snd_chnls bs)
      end
  end.

(** [i % n] on Python integers. *)
Definition py_mod (i n : Z) : result Z :=
  if n =? 0 then Raise ZeroDivisionError else Ok (i mod n).

(** [setSound(self, path)]: the triple of [sndinfo] is bound to local
    names, not to attributes of [self]. *)
Definition setSound (path : string) : method SndTable NoneType :=
  fun self =>
    match sndinfo path with
    | Raise e => (self, Raise e)
    | Ok (_size, _snd_sr, _snd_chnls) =>
        let (objs, r) :=
          for_each_enum
            (fun i obj =>
               match py_mod i _snd_chnls with
               | Raise e => Raise e
               | Ok c => base_setSound path c obj
               end)
            0 (SndTable._base_objs self) in
        (mk (SndTable._size self) (SndTable._snd_sr self)
            (SndTable._snd_chnls self) objs, r)
    end.

End Files.

(** [getRate(self)] *)
Definition getRate : method SndTable R :=
  fun self =>
    match _base_objs self with
    | [] => (self, Raise IndexError)
    | b :: _ => (self, Ok (base_getRate b))
    end.

(** Modelled from the spec: [getSize] of the table contract, which the
    class inherits from [PyoTableObject] of [_core]: the current length of
    the table, read from the first per-channel object. *)
Definition getSize : method SndTable Z :=
  fun self =>
    match _base_objs self with
    | [] => (self, Raise IndexError)
    | b :: _ => (self, Ok (base_getSize b))
    end.

(** A per-channel object holds channel [c] of the file [f] read at [path]. *)
Definition holds (path : string) (f : soundfile) (c : Z) (b : SndTable_base) : Prop :=
  base_path b = path
  /\ base_chnl b = c
  /\ base_size b = sf_frames f
  /\ base_sr b = sf_sr f
  /\ 0 <= c
  /\ sf_channels f !! Z.to_nat c = Some (base_data b).

(** [loaded fs t f]: the table [t] was loaded without error, the last time
    from the file [f]: by [__init__], or by a [setSound] that returned. *)
Inductive loaded (fs : string -> option soundfile) : SndTable -> soundfile -> Prop :=
| loaded_init path chnl f t :
    fs path = Some f ->
    __init__ fs path chnl = Ok t ->
    loaded fs t f
| loaded_setSound path f t0 f0 t :
    loaded fs t0 f0 ->
    fs path = Some f ->
    setSound fs path t0 = (t, Ok tt) ->
    loaded fs t f.

(** The attributes that [__init__] takes from [sndinfo]. *)
Definition metadata (self : SndTable) : Z * R * Z :=
  (_size self, _snd_sr self, _snd_chnls self).

(** Two files for the examples: a stereo file of 4 frames at 44100 Hz and a
    mono file of 2 frames at 8000 Hz. *)
Definition stereo : soundfile :=
  mkFile 4 44100 [[0; 1; 0; -1]; [1; 0; -1; 0]]%R.

Definition mono : soundfile :=
  mkFile 2 8000 [[0.5; 0.25]]%R.

Definition disk (path : string) : option soundfile :=
  if String.eqb path "stereo.wav" then Some stereo
  else if String.eqb path "mono.wav" then Some mono
  else None.

(** [SndTable("stereo.wav")] *)
Definition stereo_table : SndTable :=
  mk 4 44100 2
     [mkBase "stereo.wav" 0 4 44100 [0; 1; 0; -1]%R;
      mkBase "stereo.wav" 1 4 44100 [1; 0; -1; 0]%R].

(** [SndTable("mono.wav")] *)
Definition mono_table : SndTable :=
  mk 2 8000 1 [mkBase "mono.wav" 0 2 8000 [0.5; 0.25]%R].

End SndTable.

(** ** TableRec *)

Module TableRec.

(** An audio object ([PyoObject]), by identity. *)
Definition PyoObject : Type := nat.

(** Objects shared between the recorder, its per-channel recorders and the
    caller live in a store and are referred to by location. *)
Abbreviation loc := nat (only parsing).

(** Modelled from the spec: [InputFader] of [_core], the crossfade wrapper
    around the input.  [setInput(x, fadetime)] makes [x] the source and fades
    from the former source over [fadetime] seconds. *)
Record InputFader : Type := mkFader {
  fader_input : PyoObject;
  fader_previous : option PyoObject;
  fader_time : R
}.

(** Modelled from the spec: [InputFader(x)]. *)
Definition InputFader_new (x : PyoObject) : InputFader :=
  mkFader x None 0%R.

(** Modelled from the spec: [setInput(x, fadetime)] of [InputFader]. *)
Definition InputFader_setInput (x : PyoObject) (fadetime : R) (f : InputFader)
  : InputFader :=
  mkFader x (Some (fader_input f)) fadetime.

Inductive rec_state : Type :=
| Idle
| FadingIn
| Recording
| FadingOut
| Done.

(** Modelled from the spec: [TableRec_base] of [_core], the recorder of one
    channel.  It reads the fader, writes into one channel of the table and
    keeps the state of the recording and the write cursor; a new recorder is
    idle with its cursor at 0. *)
Record TableRec_base : Type := mkBase {
  rec_input : loc;
  rec_table : loc;
  rec_fadetime : R;
  rec_phase : rec_state;
  rec_cursor : Z
}.

(** Modelled from the spec: [TableRec_base(input, table, fadetime)]. *)
Definition TableRec_base_new (input table : loc) (fadetime : R) : TableRec_base :=
  mkBase input table fadetime Idle 0.

(** The store: the faders, and the buffers of the channels of the tables. *)
Record store : Type := mkStore {
  faders : gmap nat InputFader;
  tables : gmap nat (list R)
}.

(** A table ([PyoTableObject]) seen from the recorder: the locations of the
    buffers of its channels. *)
Definition PyoTableObject : Type := list loc.

(** The wrapper class. *)
Record TableRec : Type := mk {
  _input : PyoObject;
  _table : PyoTableObject;
  _in_fader : loc;
  _base_objs : list TableRec_base
}.

(** [__init__(self, input, table, fadetime=0)], for a scalar [fadetime].
    [convertArgsToLists] and [wrap] of [_core] are taken to give, for
    channel [i] of the table, the one fader, the channel and the fade time:
    one recorder per channel of the table, each reading the one fader. *)
Definition __init__ (input : PyoObject) (table : PyoTableObject)
  (fadetime : option R) (h : store) : TableRec * store :=
  let fadetime := default 0%R fadetime in
  let l := fresh (dom (faders h)) in
  let h' := mkStore (<[l := InputFader_new input]> (faders h)) (tables h) in
  (mk input table l (map (fun t => TableRec_base_new l t fadetime) table), h').

(** [pass] *)
Definition pass {S} : method S NoneType := mret PyNone.

(** [out(self, chnl=0)] *)
Definition out (chnl : option Z) : method (TableRec * store) NoneType := pass.

(** [setMul(self, x)] *)
Definition setMul {A} (x : A) : method (TableRec * store) NoneType := pass.

(** [setAdd(self, x)] *)
Definition setAdd {A} (x : A) : method (TableRec * store) NoneType := pass.

Definition set_input (x : PyoObject) : method (TableRec * store) NoneType :=
  fun '(self, h) =>
    ((mk x (_table self) (_in_fader self) (_base_objs self), h), Ok PyNone).

(** [self._in_fader.setInput(x, fadetime)] *)
Definition in_fader_setInput (x : PyoObject) (fadetime : R)
  : method (TableRec * store) NoneType :=
  fun '(self, h) =>
    ((self,
      mkStore (alter (InputFader_setInput x fadetime) (_in_fader self) (faders h))
              (tables h)),
     Ok PyNone).

(** [setInput(self, x, fadetime=0.05)] *)
Definition setInput (x : PyoObject) (fadetime : option R)
  : method (TableRec * store) NoneType :=
  let fadetime := default 0.05%R fadetime in
  set_input x ;;; in_fader_setInput x fadetime.

(** The [input] property: its getter and its setter. *)
Definition input (self : TableRec) : PyoObject := _input self.

Definition input_setter (x : PyoObject) : method (TableRec * store) NoneType :=
  setInput x None.

(** What a call leaves of the recording: for every channel the state of the
    recording and the cursor, and the contents of the tables. *)
Definition recording (s : TableRec * store)
  : list (rec_state * Z) * gmap nat (list R) :=
  (map (fun b => (rec_phase b, rec_cursor b)) (_base_objs (fst s)),
   tables (snd s)).

End TableRec.

(** ** NewTable *)

Module NewTable.

(** Modelled from the spec: [NewTable_base], the per-channel object of
    [_core]: a buffer of silence whose size is the length in seconds times
    the sampling rate of the engine, rounded; [getLength] is the size over
    the sampling rate and [getRate] the sampling rate over the size. *)
Record NewTable_base : Type := mkBase {
  base_length : R;
  base_size : Z;
  base_data : list R
}.

(** The wrapper class. *)
Record NewTable : Type := mk {
  _base_objs : list NewTable_base
}.

Section Engine.

(** The sampling rate of the engine and its rounding of a number of
    samples, both kept by [_core]. *)
Variable sr : R.
Variable round : R -> Z.

(** Modelled from the spec: [NewTable_base(length)]. *)
Definition NewTable_base_new (length : R) : NewTable_base :=
  let size := round (length * sr)%R in
  mkBase length size (repeat 0%R (Z.to_nat size)).

(** Modelled from the spec: [getSize], [getLength] and [getRate] of
    [NewTable_base]. *)
Definition base_getSize (b : NewTable_base) : Z := base_size b.

Definition base_getLength (b : NewTable_base) : R :=
  (IZR (base_size b) / sr)%R.

Definition base_getRate (b : NewTable_base) : R :=
  (sr / IZR (base_size b))%R.

(** [__init__(self, length, chnls=1)] *)
Definition __init__ (length : R) (chnls : option Z) : NewTable :=
  let chnls := default 1 chnls in
  mk (map (fun i => NewTable_base_new length) (range chnls)).

(** [self._base_objs[0].m()] *)
Definition first_channel {A} (m : NewTable_base -> A) : method NewTable A :=
  fun self =>
    match _base_objs self with
    | [] => (self, Raise IndexError)
    | b :: _ => (self, Ok (m b))
    end.

(** [getSize(self)] *)
Definition getSize : method NewTable Z := first_channel base_getSize.

(** [getLength(self)] *)
Definition getLength : method NewTable R := first_channel base_getLength.

(** [getRate(self)] *)
Definition getRate : method NewTable R := first_channel base_getRate.

End Engine.

End NewTable.

(** ** The properties [size] and [list], and the life of a table *)

Module HarmTableLife.
Import HarmTable.

(** The [list] property. *)
Definition list_getter (self : HarmTable) : list R := _list self.


(** [list.setter]: [self.replace(x)] *)
Definition list_setter (x : list R) : method HarmTable NoneType := replace x.



End HarmTableLife.

Module LinTableLife.
Import LinTable.

(** The [list] property reads the points of the first per-channel object,
    not the [_list] attribute. *)
Definition list_getter : method LinTable (list point) := getPoints.

(** [list.setter]: [self.replace(x)] *)
Definition list_setter (x : list point) : method LinTable NoneType := replace x.

End LinTableLife.

Module SndTableLife.
Import SndTable.

(** The states a [SndTable] built from [path0] can be found in: built by
    [__init__], then taken through any number of [setSound] calls, each of
    which may have returned or raised.  The files on disk stay what they
    are. *)
Inductive built_from (fs : string -> option soundfile) (path0 : string)
  : SndTable -> Prop :=
| built_init chnl t :
    __init__ fs path0 chnl = Ok t -> built_from fs path0 t
| built_setSound path t :
    built_from fs path0 t -> built_from fs path0 (fst (setSound fs path t)).

End SndTableLife.

(** * Properties *)

(** ** Loops over the per-channel objects *)

Lemma range_length (n : Z) : length (range n) = Z.to_nat n.
Proof. unfold range. now rewrite length_map, length_seq. Qed.

Lemma range_lookup (n j : Z) :
  0 <= j < n -> range n !! Z.to_nat j = Some j.
Proof.
  intros Hj. unfold range. rewrite list_lookup_fmap.
  rewrite lookup_seq_lt by lia. simpl. f_equal. lia.
Qed.

Lemma sample_at_map (f : Z -> R) (n j : Z) :
  0 <= j < n -> sample_at (map f (range n)) j = Some (f j).
Proof.
  intros Hj. unfold sample_at.
  destruct (Z.ltb_spec j 0); [lia |].
  rewrite list_lookup_fmap, range_lookup by lia. reflexivity.
Qed.

Lemma for_each_enum_total {B} (f : Z -> B -> result B) (g : Z -> B -> B) :
  (forall i b, f i b = Ok (g i b)) ->
  forall objs i,
    for_each_enum f i objs
    = (imap (fun k => g (i + Z.of_nat k)) objs, Ok tt).
Proof.
  intros Hf. induction objs as [| b rest IH]; intros i; simpl.
  - reflexivity.
  - rewrite Hf, IH. simpl. f_equal. f_equal.
    + f_equal. lia.
    + apply imap_ext. intros k x _. simpl. f_equal. lia.
Qed.

Lemma for_each_total {B} (f : B -> result B) (g : B -> B) :
  (forall b, f b = Ok (g b)) ->
  forall objs, for_each f objs = (map g objs, Ok tt).
Proof.
  intros Hf objs. unfold for_each. generalize 0.
  induction objs as [| b rest IH]; intros i; simpl.
  - reflexivity.
  - now rewrite Hf, IH.
Qed.

Lemma for_each_first_raises {B} (f : B -> result B) (e : exn) (b : B) rest :
  f b = Raise e -> for_each f (b :: rest) = (b :: rest, Raise e).
Proof. intros Hf. unfold for_each. simpl. now rewrite Hf. Qed.

(** ** HarmTable: peak normalization *)

Module HarmTableFacts.
Import HarmTable.

Lemma peak_nonneg (buf : list R) : (0 <= peak buf)%R.
Proof.
  induction buf as [| v buf IH]; simpl.
  - lra.
  - eapply Rle_trans; [apply IH | apply Rmax_r].
Qed.

Lemma peak_bounds (buf : list R) (v : R) :
  In v buf -> (Rabs v <= peak buf)%R.
Proof.
  induction buf as [| w buf IH]; simpl; [tauto |].
  intros [-> | Hin].
  - apply Rmax_l.
  - eapply Rle_trans; [apply IH, Hin | apply Rmax_r].
Qed.

Lemma peak_scaled (buf : list R) (m : R) :
  (0 < m)%R -> peak (map (fun v => (v / m)%R) buf) = (peak buf / m)%R.
Proof.
  intros Hm. induction buf as [| v buf IH]; simpl.
  - unfold Rdiv. now rewrite Rmult_0_l.
  - rewrite IH. unfold Rdiv.
    rewrite Rabs_mult, (Rabs_pos_eq (/ m)) by (left; now apply Rinv_0_lt_compat).
    rewrite (Rmult_comm (Rabs v)), (Rmult_comm (peak buf)).
    rewrite RmaxRmult by (left; now apply Rinv_0_lt_compat).
    apply Rmult_comm.
Qed.

Lemma peak_silence (buf : list R) : Forall (eq 0%R) buf -> peak buf = 0%R.
Proof.
  induction 1 as [| v buf <- _ IH]; simpl.
  - reflexivity.
  - rewrite IH, Rabs_R0. apply Rmax_left. lra.
Qed.

Lemma normalize_peak (buf : list R) :
  peak buf <> 0%R ->
  normalize buf = map (fun v => (v / peak buf)%R) buf
  /\ peak (normalize buf) = 1%R.
Proof.
  intros Hm. unfold normalize. destruct (Req_dec_T (peak buf) 0) as [E | _].
  - contradiction.
  - split; [reflexivity |].
    assert (0 < peak buf)%R by (pose proof (peak_nonneg buf); lra).
    rewrite peak_scaled by assumption. now field.
Qed.

Lemma normalize_silence (buf : list R) :
  peak buf = 0%R -> normalize buf = buf.
Proof.
  intros Hm. unfold normalize. now destruct (Req_dec_T (peak buf) 0).
Qed.

Lemma harm_sum_silence (weights : list R) :
  Forall (eq 0%R) weights -> forall k size i, harm_sum weights k size i = 0%R.
Proof.
  induction 1 as [| w ws <- _ IH]; intros k size i; simpl.
  - reflexivity.
  - rewrite IH. ring.
Qed.

Lemma raw_silence (weights : list R) (size : Z) :
  Forall (eq 0%R) weights -> Forall (eq 0%R) (raw weights size).
Proof.
  intros Hw. unfold raw. apply Forall_forall. intros v Hv.
  apply list_elem_of_In, in_map_iff in Hv. destruct Hv as [i [<- _]].
  symmetry. now apply harm_sum_silence.
Qed.

Lemma generate_peak_normalized (weights : list R) (size : Z) :
  peak_normalized weights size (generate weights size).
Proof.
  unfold peak_normalized, generate. cbv zeta. split; [| split].
  - apply normalize_peak.
  - apply normalize_silence.
  - intros Hw.
    assert (Hz : Forall (eq 0%R) weights) by (destruct Hw as [-> | Hw]; [constructor | exact Hw]).
    pose proof (raw_silence weights size Hz) as Hraw.
    rewrite normalize_silence by now apply peak_silence.
    split; [| exact Hraw].
    unfold raw. now rewrite length_map, range_length.
Qed.

(** C1.  For every list of weights: building a [HarmTable] of a positive
    size, and [replace] on any table, leave in every channel the
    peak-normalized waveform of the weights (divided by its peak so that the
    peak is 1 when the peak is not 0, silence when there is no weight or all
    weights are 0). *)
Theorem HarmTable_peak_normalized (weights : list R) (size : Z) :
  0 < size ->
  (exists t buf,
      __init__ weights size = Ok t
      /\ buffers t = [buf]
      /\ peak_normalized weights size buf)
  /\ (forall t0 : HarmTable,
        exists t,
          replace weights t0 = (t, Ok tt)
          /\ Forall2 (fun b0 buf => peak_normalized weights (base_size b0) buf)
                     (_base_objs t0) (buffers t)).
Proof.
  intros Hsize. split.
  - unfold __init__, HarmTable_base_new.
    destruct (Z.leb_spec size 0) as [Hle | _]; [lia |].
    eexists. eexists. split; [reflexivity |]. split; [reflexivity |].
    apply generate_peak_normalized.
  - intros t0. unfold replace, mbind, set_list, each_base. simpl.
    rewrite (for_each_total _ (fun b => mkBase weights (base_size b)
                                          (generate weights (base_size b))))
      by reflexivity.
    eexists. split; [reflexivity |].
    unfold buffers. simpl.
    induction (_base_objs t0) as [| b0 rest IH]; simpl; constructor.
    + apply generate_peak_normalized.
    + exact IH.
Qed.

Lemma sine_has_peak : peak (raw [1%R] 4) <> 0%R.
Proof.
  assert (Hq : harm_sum [1%R] 0 4 1 = 1%R).
  { simpl. change (0 + 1) with 1.
    replace (2 * PI * 1 * 1 / 4)%R with (PI / 2)%R by field.
    rewrite sin_PI2. ring. }
  assert (Hin : In (harm_sum [1%R] 0 4 1) (raw [1%R] 4)).
  { unfold raw. apply in_map. unfold range. simpl. tauto. }
  apply peak_bounds in Hin. rewrite Hq, Rabs_R1 in Hin. lra.
Qed.

(** One cycle of a sine over 4 samples: the table exists and its peak is 1. *)
Lemma HarmTable_peak_normalized_witness :
  0 < 4
  /\ exists t buf,
      __init__ [1%R] 4 = Ok t /\ buffers t = [buf] /\ peak buf = 1%R.
Proof.
  split; [lia |].
  destruct (HarmTable_peak_normalized [1%R] 4 ltac:(lia))
    as [(t & buf & Hinit & Hbuf & Hnorm & _) _].
  exists t, buf. split; [exact Hinit |]. split; [exact Hbuf |].
  apply Hnorm, sine_has_peak.
Defined.

End HarmTableFacts.

(** ** LinTable: zeros after the last point *)

Module LinTableFacts.
Import LinTable.

Lemma increasing_last (locs : list Z) :
  forall prev L,
    increasing_from prev locs = true ->
    last (prev :: locs) = Some L ->
    prev <= L.
Proof.
  induction locs as [| l rest IH]; intros prev L Hinc Hlast.
  - simpl in Hlast. injection Hlast as <-. lia.
  - simpl in Hinc. apply andb_true_iff in Hinc as [Hlt Hinc].
    rewrite last_cons_cons in Hlast.
    specialize (IH l L Hinc Hlast).
    apply Z.ltb_lt in Hlt. lia.
Qed.

Lemma segment_sample_tail (rest : list point) :
  forall (p0 : point) (L i : Z),
    increasing_from (fst p0) (locations rest) = true ->
    last (fst p0 :: locations rest) = Some L ->
    L < i ->
    segment_sample p0 rest i = 0%R.
Proof.
  induction rest as [| p1 rest IH]; intros p0 L i Hinc Hlast Hi.
  - simpl in *. injection Hlast as <-.
    destruct (Z.eqb_spec i (fst p0)); [lia | reflexivity].
  - simpl in Hinc. apply andb_true_iff in Hinc as [_ Hinc].
    simpl locations in Hlast. rewrite last_cons_cons in Hlast.
    pose proof (increasing_last _ _ _ Hinc Hlast) as Hle.
    simpl. destruct (Z.leb_spec i (fst p1)); [lia |].
    now apply (IH p1 L i).
Qed.

Lemma lin_sample_tail (pts : list point) (L i : Z) :
  strictly_increasing (locations pts) = true ->
  last_location pts = Some L ->
  L < i ->
  lin_sample pts i = 0%R.
Proof.
  destruct pts as [| p0 rest]; [reflexivity |].
  unfold last_location. simpl. intros Hinc Hlast Hi.
  pose proof (increasing_last _ _ _ Hinc Hlast) as Hle.
  destruct (Z.ltb_spec i (fst p0)); [lia |].
  now apply (segment_sample_tail rest p0 L i).
Qed.

Lemma valid_last_in_range (pts : list point) (size L : Z) :
  valid_points pts size = true ->
  last_location pts = Some L ->
  0 <= L <= size - 1.
Proof.
  unfold valid_points, last_location. intros Hv Hlast.
  apply andb_true_iff in Hv as [Hr _].
  apply last_Some_elem_of, list_elem_of_In in Hlast.
  rewrite forallb_forall in Hr. specialize (Hr L Hlast).
  unfold in_range in Hr. apply andb_true_iff in Hr as [H0 H1].
  apply Z.leb_le in H0, H1. lia.
Qed.

Lemma render_tail (pts : list point) (size L : Z) :
  valid_points pts size = true ->
  last_location pts = Some L ->
  forall j, L < j <= size - 1 -> sample_at (render pts size) j = Some 0%R.
Proof.
  intros Hv Hlast j Hj.
  pose proof (valid_last_in_range _ _ _ Hv Hlast) as HL.
  unfold render. rewrite sample_at_map by lia. f_equal.
  apply andb_true_iff in Hv as [_ Hinc].
  apply (lin_sample_tail pts L j Hinc Hlast). lia.
Qed.

(** C2.  For a valid list of points whose last location [L] is below
    [size - 1]: building a [LinTable], and [replace] on a table of that
    size, give buffers whose samples at every index [j] with
    [L < j <= size - 1] are 0. *)
Theorem LinTable_tail_zero (pts : list point) (size L : Z) :
  valid_points pts size = true ->
  last_location pts = Some L ->
  L < size - 1 ->
  (exists t buf,
      __init__ pts size = Ok t
      /\ buffers t = [buf]
      /\ forall j, L < j <= size - 1 -> sample_at buf j = Some 0%R)
  /\ (forall t0 : LinTable,
        Forall (fun b => base_size b = size) (_base_objs t0) ->
        exists t,
          replace pts t0 = (t, Ok tt)
          /\ length (buffers t) = length (buffers t0)
          /\ Forall (fun buf =>
                       forall j, L < j <= size - 1 -> sample_at buf j = Some 0%R)
                    (buffers t)).
Proof.
  intros Hv Hlast HL.
  pose proof (valid_last_in_range _ _ _ Hv Hlast) as Hrange.
  split.
  - unfold __init__, LinTable_base_new.
    destruct (Z.leb_spec size 0) as [Hle | _]; [lia |].
    rewrite Hv. eexists. eexists.
    split; [reflexivity |]. split; [reflexivity |].
    now apply render_tail.
  - intros t0 Hsizes.
    unfold replace, mbind, set_list, each_base. simpl.
    assert (Hloop : for_each (base_replace pts) (_base_objs t0)
                    = (map (fun _ => mkBase pts size (render pts size))
                           (_base_objs t0), Ok tt)).
    { unfold for_each. generalize 0.
      induction Hsizes as [| b rest Hb _ IH]; intros i; simpl.
      - reflexivity.
      - unfold base_replace at 1. rewrite Hb, Hv. now rewrite IH. }
    rewrite Hloop. eexists. split; [reflexivity |].
    unfold buffers. simpl. rewrite !length_map. split; [reflexivity |].
    rewrite map_map. simpl. apply Forall_forall. intros buf Hin.
    apply list_elem_of_In, in_map_iff in Hin. destruct Hin as [_ [<- _]].
    now apply render_tail.
Qed.

(** Points [(0, 0), (4, 1)] in a table of 8 samples: indices 5, 6 and 7
    hold 0. *)
Lemma LinTable_tail_zero_witness :
  valid_points [(0, 0%R); (4, 1%R)] 8 = true
  /\ last_location [(0, 0%R); (4, 1%R)] = Some 4
  /\ 4 < 8 - 1
  /\ exists t buf,
      __init__ [(0, 0%R); (4, 1%R)] 8 = Ok t
      /\ buffers t = [buf]
      /\ sample_at buf 5 = Some 0%R
      /\ sample_at buf 6 = Some 0%R
      /\ sample_at buf 7 = Some 0%R.
Proof.
  split; [reflexivity |]. split; [reflexivity |]. split; [lia |].
  destruct (LinTable_tail_zero [(0, 0%R); (4, 1%R)] 8 4
              eq_refl eq_refl ltac:(lia))
    as [(t & buf & Hinit & Hbuf & Htail) _].
  exists t, buf. split; [exact Hinit |]. split; [exact Hbuf |].
  repeat split; apply Htail; lia.
Defined.

End LinTableFacts.

(** ** SndTable *)

Module SndTableFacts.
Import SndTable.

Section Files.

Variable fs : string -> option soundfile.

Lemma base_new_holds (path : string) (f : soundfile) (c : Z) (b : SndTable_base) :
  fs path = Some f ->
  SndTable_base_new fs path c = Ok b ->
  holds path f c b.
Proof.
  intros Hf. unfold SndTable_base_new. rewrite Hf.
  destruct (Z.ltb_spec c 0) as [| Hc]; [discriminate |].
  destruct (sf_channels f !! Z.to_nat c) as [d |] eqn:Hd; [| discriminate].
  intros [= <-]. unfold holds. simpl. tauto.
Qed.

Lemma base_new_in_range (path : string) (f : soundfile) (c : Z) :
  fs path = Some f ->
  0 <= c < sf_chnls f ->
  exists b, SndTable_base_new fs path c = Ok b.
Proof.
  intros Hf Hc. unfold SndTable_base_new. rewrite Hf.
  destruct (Z.ltb_spec c 0); [lia |].
  destruct (lookup_lt_is_Some_2 (sf_channels f) (Z.to_nat c)) as [d Hd].
  { unfold sf_chnls in Hc. lia. }
  rewrite Hd. eauto.
Qed.

Lemma new_bases_hold (path : string) (f : soundfile) :
  fs path = Some f ->
  forall chnls bs,
    new_bases fs path chnls = Ok bs ->
    Forall2 (holds path f) chnls bs.
Proof.
  intros Hf. induction chnls as [| c rest IH]; intros bs; simpl.
  - intros [= <-]. constructor.
  - destruct (SndTable_base_new fs path c) as [b |] eqn:Hb; [| discriminate].
    destruct (new_bases fs path rest) as [bs' |]; [| discriminate].
    intros [= <-]. constructor; [| now apply IH].
    now apply (base_new_holds path f c b).
Qed.

(** [setSound] on a file that has a channel: every per-channel object, in
    its place, is loaded again, object [i] from channel [i mod C]. *)
Lemma setSound_loop (path : string) (f : soundfile) :
  fs path = Some f ->
  sf_channels f <> [] ->
  forall objs i,
    exists objs',
      for_each_enum
        (fun i obj =>
           match py_mod i (sf_chnls f) with
           | Raise e => Raise e
           | Ok c => base_setSound fs path c obj
           end) i objs = (objs', Ok tt)
      /\ length objs' = length objs
      /\ forall (k : nat) b',
           objs' !! k = Some b' ->
           holds path f ((i + Z.of_nat k) mod sf_chnls f) b'.
Proof.
  intros Hf Hne.
  assert (HC : 0 < sf_chnls f).
  { unfold sf_chnls. destruct (sf_channels f); [contradiction | simpl; lia]. }
  induction objs as [| b rest IH]; intros i; simpl.
  - exists []. split; [reflexivity |]. split; [reflexivity |].
    intros k b' Hk. discriminate.
  - unfold py_mod at 1. destruct (Z.eqb_spec (sf_chnls f) 0); [lia |].
    unfold base_setSound at 1.
    destruct (base_new_in_range path f (i mod sf_chnls f) Hf) as [b1 Hb1].
    { now apply Z.mod_pos_bound. }
    rewrite Hb1.
    destruct (IH (i + 1)) as (rest' & -> & Hlen & Hrest).
    exists (b1 :: rest'). split; [reflexivity |].
    split; [simpl; now rewrite Hlen |].
    intros [| k] b' Hk; simpl in Hk.
    + injection Hk as <-. rewrite Z.add_0_r.
      now apply (base_new_holds path f).
    + replace (i + Z.of_nat (S k)) with (i + 1 + Z.of_nat k) by lia.
      now apply Hrest.
Qed.

Lemma setSound_loads (path : string) (f : soundfile) (t : SndTable) :
  fs path = Some f ->
  sf_channels f <> [] ->
  exists objs',
    setSound fs path t
    = (mk (_size t) (_snd_sr t) (_snd_chnls t) objs', Ok tt)
    /\ length objs' = length (_base_objs t)
    /\ forall (k : nat) b',
         objs' !! k = Some b' ->
         holds path f (Z.of_nat k mod sf_chnls f) b'.
Proof.
  intros Hf Hne. unfold setSound, sndinfo. rewrite Hf.
  destruct (setSound_loop path f Hf Hne (_base_objs t) 0)
    as (objs' & -> & Hlen & Hall).
  exists objs'. split; [reflexivity |]. split; [exact Hlen |].
  intros k b' Hk. now apply (Hall k b').
Qed.

Lemma rate_times_size (b : SndTable_base) :
  0 < base_size b ->
  (base_getRate b * IZR (base_getSize b))%R = base_sr b.
Proof.
  intros Hpos. unfold base_getRate, base_getSize.
  assert (IZR (base_size b) <> 0%R) by (apply not_0_IZR; lia).
  now field.
Qed.

End Files.

Lemma loaded_holds (fs : string -> option soundfile) (t : SndTable) (f : soundfile) :
  loaded fs t f ->
  Forall (fun b => base_size b = sf_frames f /\ base_sr b = sf_sr f)
         (_base_objs t).
Proof.
  intros Hl. destruct Hl as [path chnl f t Hf Hinit | path f t0 f0 t _ Hf Hset].
  - unfold __init__, sndinfo in Hinit. rewrite Hf in Hinit.
    destruct (new_bases fs path _) as [bs |] eqn:Hbs; [| discriminate].
    injection Hinit as <-. simpl.
    pose proof (new_bases_hold fs path f Hf _ _ Hbs) as Hall. clear Hbs.
    induction Hall as [| c b cs bs Hb _ IH]; [constructor |].
    constructor; [| exact IH]. unfold holds in Hb. tauto.
  - destruct (sf_channels f) as [| ch chs] eqn:Hch.
    + unfold setSound, sndinfo in Hset. rewrite Hf in Hset.
      destruct (_base_objs t0) as [| b rest]; simpl in Hset.
      * injection Hset as <-. constructor.
      * unfold py_mod, sf_chnls in Hset. rewrite Hch in Hset.
        simpl in Hset. discriminate.
    + destruct (setSound_loads fs path f t0 Hf) as (objs' & Heq & _ & Hall).
      { rewrite Hch. discriminate. }
      rewrite Heq in Hset. injection Hset as <-. simpl.
      apply Forall_lookup. intros k b' Hk.
      specialize (Hall k b' Hk). unfold holds in Hall. tauto.
Qed.

(** C3.  For every table loaded without error, if it has a channel and the
    file has at least one frame: [getRate] returns the sample rate of the
    file divided by the size of the table in frames, and that rate times
    the size is the sample rate of the file. *)
Theorem SndTable_getRate_roundtrip
  (fs : string -> option soundfile) (t : SndTable) (f : soundfile) :
  loaded fs t f ->
  _base_objs t <> [] ->
  0 < sf_frames f ->
  exists rate : R,
    getRate t = (t, Ok rate)
    /\ getSize t = (t, Ok (sf_frames f))
    /\ rate = (sf_sr f / IZR (sf_frames f))%R
    /\ (rate * IZR (sf_frames f))%R = sf_sr f.
Proof.
  intros Hl Hne Hpos. pose proof (loaded_holds fs t f Hl) as Hall.
  unfold getRate, getSize.
  destruct (_base_objs t) as [| b rest]; [contradiction |].
  apply Forall_cons in Hall as [[Hsize Hsr] _].
  exists (base_getRate b). split; [reflexivity |].
  split; [unfold base_getSize; now rewrite Hsize |].
  split.
  - unfold base_getRate. now rewrite Hsize, Hsr.
  - rewrite <- Hsize, <- Hsr. apply rate_times_size. lia.
Qed.

(** The stereo file of 4 frames at 44100 Hz: the rate is 44100/4. *)
Lemma SndTable_getRate_roundtrip_witness :
  loaded disk stereo_table stereo
  /\ _base_objs stereo_table <> []
  /\ 0 < sf_frames stereo
  /\ exists rate : R,
      getRate stereo_table = (stereo_table, Ok rate)
      /\ getSize stereo_table = (stereo_table, Ok 4)
      /\ rate = (44100 / 4)%R
      /\ (rate * 4)%R = 44100%R.
Proof.
  assert (Hl : loaded disk stereo_table stereo).
  { apply (loaded_init disk "stereo.wav" None); reflexivity. }
  assert (Hne : _base_objs stereo_table <> []) by discriminate.
  assert (Hpos : 0 < sf_frames stereo) by (simpl; lia).
  split; [exact Hl |]. split; [exact Hne |]. split; [exact Hpos |].
  exact (SndTable_getRate_roundtrip disk stereo_table stereo Hl Hne Hpos).
Defined.

(** C4.  [setSound] on a file that decodes and has [C >= 1] channels
    returns, keeps the number of per-channel objects, and leaves in object
    [i] the samples of channel [i mod C] of that file. *)
Theorem SndTable_setSound_wraps
  (fs : string -> option soundfile) (path : string) (f : soundfile)
  (t : SndTable) :
  fs path = Some f ->
  sf_channels f <> [] ->
  exists t',
    setSound fs path t = (t', Ok tt)
    /\ length (_base_objs t') = length (_base_objs t)
    /\ forall i : nat,
         (i < length (_base_objs t))%nat ->
         exists b',
           _base_objs t' !! i = Some b'
           /\ base_path b' = path
           /\ base_chnl b' = Z.of_nat i mod sf_chnls f
           /\ sf_channels f !! (i mod length (sf_channels f))%nat
              = Some (base_data b').
Proof.
  intros Hf Hne.
  destruct (setSound_loads fs path f t Hf Hne) as (objs' & Heq & Hlen & Hall).
  eexists. split; [exact Heq |]. simpl. split; [exact Hlen |].
  intros i Hi.
  destruct (lookup_lt_is_Some_2 objs' i) as [b' Hb']; [lia |].
  exists b'. split; [exact Hb' |].
  destruct (Hall i b' Hb') as (Hp & Hc & _ & _ & _ & Hd).
  split; [exact Hp |]. split; [exact Hc |].
  unfold sf_chnls in Hd. rewrite <- Nat2Z.inj_mod, Nat2Z.id in Hd. exact Hd.
Qed.

(** The two per-channel objects of the stereo table, loaded again from the
    mono file, both hold its only channel. *)
Lemma SndTable_setSound_wraps_witness :
  disk "mono.wav" = Some mono
  /\ sf_channels mono <> []
  /\ exists t',
      setSound disk "mono.wav" stereo_table = (t', Ok tt)
      /\ length (_base_objs t') = 2%nat
      /\ map base_chnl (_base_objs t') = [0; 0]
      /\ map base_data (_base_objs t') = [[0.5; 0.25]; [0.5; 0.25]]%R.
Proof.
  split; [reflexivity |]. split; [discriminate |].
  destruct (SndTable_setSound_wraps disk "mono.wav" mono stereo_table
              eq_refl ltac:(discriminate))
    as (t' & Hset & Hlen & _).
  exists t'. split; [exact Hset |]. split; [exact Hlen |].
  injection Hset as <-. split; reflexivity.
Defined.

Lemma setSound_metadata
  (fs : string -> option soundfile) (path : string) (t : SndTable) :
  metadata (fst (setSound fs path t)) = metadata t.
Proof.
  unfold setSound. destruct (sndinfo fs path) as [[[sz sr] ch] | e].
  - destruct (for_each_enum _ 0 (_base_objs t)) as [objs r]. reflexivity.
  - reflexivity.
Qed.

Lemma init_metadata
  (fs : string -> option soundfile) (path0 : string) (chnl : option Z)
  (t : SndTable) :
  __init__ fs path0 chnl = Ok t -> sndinfo fs path0 = Ok (metadata t).
Proof.
  unfold __init__.
  destruct (sndinfo fs path0) as [[[sz sr] ch] | e]; [| discriminate].
  destruct (new_bases fs path0 _) as [bs |]; [| discriminate].
  now intros [= <-].
Qed.

Lemma built_from_metadata
  (fs : string -> option soundfile) (path0 : string) (t : SndTable) :
  SndTableLife.built_from fs path0 t -> sndinfo fs path0 = Ok (metadata t).
Proof.
  induction 1 as [chnl t Hinit | path t _ IH].
  - now apply (init_metadata fs path0 chnl).
  - now rewrite setSound_metadata.
Qed.

(** C9.  [setSound] never assigns [_size], [_snd_sr] or [_snd_chnls]: on
    every table they are after the call what they were before it, whatever
    the call does; and on a table built by [__init__] from [path0] and taken
    through any number of [setSound] calls, returned or raised, they are
    still the [sndinfo] of [path0]. *)
Theorem SndTable_setSound_keeps_metadata
  (fs : string -> option soundfile) (path : string) (t : SndTable) :
  metadata (fst (setSound fs path t)) = metadata t
  /\ (forall path0,
        SndTableLife.built_from fs path0 t ->
        sndinfo fs path0 = Ok (metadata (fst (setSound fs path t)))).
Proof.
  split; [apply setSound_metadata |].
  intros path0 Hb. rewrite setSound_metadata.
  now apply built_from_metadata.
Qed.

(** The stereo table, loaded from the mono file and then from a path that
    does not decode, still carries 4 frames, 44100 Hz and 2 channels, the
    [sndinfo] of the stereo file and not that of the mono file. *)
Lemma SndTable_setSound_keeps_metadata_witness :
  SndTableLife.built_from disk "stereo.wav"
    (fst (setSound disk "mono.wav" stereo_table))
  /\ map base_path (_base_objs (fst (setSound disk "mono.wav" stereo_table)))
     = ["mono.wav"%string; "mono.wav"%string]
  /\ sndinfo disk "stereo.wav"
     = Ok (metadata
             (fst (setSound disk "none.wav"
                     (fst (setSound disk "mono.wav" stereo_table)))))
  /\ metadata
       (fst (setSound disk "none.wav"
               (fst (setSound disk "mono.wav" stereo_table))))
     = (4, 44100%R, 2)
  /\ sndinfo disk "stereo.wav" = Ok (4, 44100%R, 2)
  /\ sndinfo disk "mono.wav" = Ok (2, 8000%R, 1).
Proof.
  assert (Hb : SndTableLife.built_from disk "stereo.wav"
                 (fst (setSound disk "mono.wav" stereo_table))).
  { apply SndTableLife.built_setSound.
    now apply (SndTableLife.built_init disk "stereo.wav" None). }
  split; [exact Hb |]. split; [reflexivity |].
  destruct (SndTable_setSound_keeps_metadata disk "none.wav"
              (fst (setSound disk "mono.wav" stereo_table)))
    as [Hkeep Hinfo].
  split; [exact (Hinfo "stereo.wav"%string Hb) |].
  split; [| split; reflexivity].
  rewrite Hkeep. apply setSound_metadata.
Defined.

End SndTableFacts.

(** ** setSize with a size that is not positive *)

Module SetSizeFacts.

Lemma HarmTable_setSize_rejected (n : Z) (t : HarmTable.HarmTable) :
  n <= 0 ->
  HarmTable._base_objs t <> [] ->
  HarmTable.setSize n t
  = (HarmTable.mk (HarmTable._list t) n (HarmTable._base_objs t),
     Raise ConfigurationError).
Proof.
  intros Hn Hne. destruct t as [lst sz [| b rest]]; [contradiction |].
  unfold HarmTable.setSize, mbind, HarmTable.set_size, HarmTable.each_base.
  simpl. rewrite (for_each_first_raises _ ConfigurationError); [reflexivity |].
  unfold HarmTable.base_setSize. destruct (Z.leb_spec n 0); [reflexivity | lia].
Qed.

Lemma HannTable_setSize_rejected (n : Z) (t : HannTable.HannTable) :
  n <= 0 ->
  HannTable._base_objs t <> [] ->
  HannTable.setSize n t
  = (HannTable.mk n (HannTable._base_objs t), Raise ConfigurationError).
Proof.
  intros Hn Hne. destruct t as [sz [| b rest]]; [contradiction |].
  unfold HannTable.setSize, mbind, HannTable.set_size, HannTable.each_base.
  simpl. rewrite (for_each_first_raises _ ConfigurationError); [reflexivity |].
  unfold HannTable.base_setSize. destruct (Z.leb_spec n 0); [reflexivity | lia].
Qed.

Lemma LinTable_setSize_rejected
  (resize_points : Z -> Z -> list LinTable.point -> list LinTable.point)
  (n : Z) (t : LinTable.LinTable) :
  n <= 0 ->
  LinTable._base_objs t <> [] ->
  LinTable.setSize resize_points n t
  = (LinTable.mk (LinTable._list t) n (LinTable._base_objs t),
     Raise ConfigurationError).
Proof.
  intros Hn Hne. destruct t as [lst sz [| b rest]]; [contradiction |].
  unfold LinTable.setSize, mbind, LinTable.set_size, LinTable.each_base.
  simpl. rewrite (for_each_first_raises _ ConfigurationError); [reflexivity |].
  unfold LinTable.base_setSize. destruct (Z.leb_spec n 0); [reflexivity | lia].
Qed.

(** C5, as the code has it.  For [n <= 0] and a table with a per-channel
    object, [setSize(n)] of [HarmTable], [HannTable] and [LinTable] raises
    [ConfigurationError] from the call itself and leaves every per-channel
    object, hence every buffer, as it was; the [size] attribute, assigned
    before the per-channel object is asked, is [n] after the call. *)
Theorem setSize_nonpositive_raises (n : Z) :
  n <= 0 ->
  (forall t : HarmTable.HarmTable,
      HarmTable._base_objs t <> [] ->
      exists t',
        HarmTable.setSize n t = (t', Raise ConfigurationError)
        /\ HarmTable._base_objs t' = HarmTable._base_objs t
        /\ HarmTable.buffers t' = HarmTable.buffers t
        /\ HarmTable.size t' = n)
  /\ (forall t : HannTable.HannTable,
        HannTable._base_objs t <> [] ->
        exists t',
          HannTable.setSize n t = (t', Raise ConfigurationError)
          /\ HannTable._base_objs t' = HannTable._base_objs t
          /\ HannTable.buffers t' = HannTable.buffers t
          /\ HannTable.size t' = n)
  /\ (forall resize_points (t : LinTable.LinTable),
        LinTable._base_objs t <> [] ->
        exists t',
          LinTable.setSize resize_points n t = (t', Raise ConfigurationError)
          /\ LinTable._base_objs t' = LinTable._base_objs t
          /\ LinTable.buffers t' = LinTable.buffers t
          /\ LinTable.size t' = n).
Proof.
  intros Hn. split; [| split].
  - intros t Hne. eexists.
    split; [now apply HarmTable_setSize_rejected |]. now repeat split.
  - intros t Hne. eexists.
    split; [now apply HannTable_setSize_rejected |]. now repeat split.
  - intros rp t Hne. eexists.
    split; [now apply LinTable_setSize_rejected |]. now repeat split.
Qed.

(** [HarmTable([1.], 8).setSize(0)]: the error is raised, the per-channel
    object is untouched, and [size] reads 0. *)
Lemma setSize_nonpositive_raises_witness :
  0 <= 0
  /\ HarmTable.__init__ [1%R] 8 = Ok HarmTable.table8
  /\ exists t',
      HarmTable.setSize 0 HarmTable.table8 = (t', Raise ConfigurationError)
      /\ HarmTable._base_objs t' = HarmTable._base_objs HarmTable.table8
      /\ HarmTable.buffers t' = HarmTable.buffers HarmTable.table8
      /\ HarmTable.size t' = 0.
Proof.
  split; [lia |]. split; [reflexivity |].
  destruct (setSize_nonpositive_raises 0 ltac:(lia)) as [Hharm _].
  apply (Hharm HarmTable.table8). discriminate.
Defined.

(** C5, as it is written, fails: after [HarmTable([1.], 8).setSize(0)] has
    raised, the size of the table is 0, not 8. *)
Lemma setSize_failure_changes_size :
  HarmTable.__init__ [1%R] 8 = Ok HarmTable.table8
  /\ HarmTable.size HarmTable.table8 = 8
  /\ snd (HarmTable.setSize 0 HarmTable.table8) = Raise ConfigurationError
  /\ HarmTable.size (fst (HarmTable.setSize 0 HarmTable.table8)) = 0
  /\ ~ HarmTable.setSize_fails_cleanly 0 HarmTable.table8.
Proof.
  assert (Hset : HarmTable.setSize 0 HarmTable.table8
                 = (HarmTable.mk [1%R] 0 (HarmTable._base_objs HarmTable.table8),
                    Raise ConfigurationError)).
  { apply HarmTable_setSize_rejected; [lia | discriminate]. }
  split; [reflexivity |]. split; [reflexivity |].
  rewrite Hset. split; [reflexivity |]. split; [reflexivity |].
  unfold HarmTable.setSize_fails_cleanly. rewrite Hset. simpl.
  intros (_ & _ & Hsize). discriminate.
Qed.

End SetSizeFacts.

(** ** TableRec *)

Module TableRecFacts.
Import TableRec.

(** C7.  In every state of the recorder and of the store, [setInput]
    returns, and changes the [_input] attribute and the fader of the
    recorder only: the per-channel recorders (state of the recording and
    cursor), the table, the contents of all tables and every other fader are
    what they were. *)
Theorem TableRec_setInput_frame
  (x : PyoObject) (fadetime : option R) (self : TableRec) (h : store) :
  exists self' h',
    setInput x fadetime (self, h) = ((self', h'), Ok tt)
    /\ recording (self', h') = recording (self, h)
    /\ _base_objs self' = _base_objs self
    /\ _table self' = _table self
    /\ _in_fader self' = _in_fader self
    /\ tables h' = tables h
    /\ (forall l : nat, l <> _in_fader self -> faders h' !! l = faders h !! l)
    /\ _input self' = x
    /\ faders h' !! _in_fader self
       = InputFader_setInput x (default 0.05%R fadetime)
           <$> faders h !! _in_fader self.
Proof.
  eexists. eexists. split; [reflexivity |]. simpl.
  repeat split.
  - intros l Hl. now rewrite lookup_alter_ne.
  - now rewrite lookup_alter_eq.
Qed.

(** C8.  [out], [setMul] and [setAdd], with any argument, return [None] and
    leave the recorder and the store (faders and tables) as they were. *)
Theorem TableRec_is_sink
  (s : TableRec * store) (chnl : option Z) (A : Type) (x : A) :
  out chnl s = (s, Ok tt)
  /\ setMul x s = (s, Ok tt)
  /\ setAdd x s = (s, Ok tt).
Proof. repeat split. Qed.

(** C10.  Assigning the [input] property is [setInput] with a fade time of
    0.05: on every recorder the two calls give the same state and outcome,
    and on a recorder built with any [fadetime] they leave [_input] at [x]
    and the fader crossfading to [x] from the former input in 0.05 s. *)
Theorem TableRec_input_setter (x : PyoObject) :
  (forall s : TableRec * store,
      input_setter x s = setInput x (Some 0.05%R) s)
  /\ (forall (input0 : PyoObject) (table : PyoTableObject)
        (fadetime0 : option R) (h : store),
        let s := __init__ input0 table fadetime0 h in
        let s' := fst (input_setter x s) in
        snd (input_setter x s) = Ok tt
        /\ input (fst s') = x
        /\ faders (snd s') !! _in_fader (fst s')
           = Some (mkFader x (Some input0) 0.05%R)).
Proof.
  split; [reflexivity |].
  intros input0 table fadetime0 h. simpl.
  split; [reflexivity |]. split; [reflexivity |].
  now rewrite lookup_alter_eq, lookup_insert_eq.
Qed.

End TableRecFacts.


(** * Further properties of the wrappers *)

(** ** The number of channels of a table *)

Module ChannelFacts.

Lemma for_each_enum_length {B} (f : Z -> B -> result B) (objs : list B) :
  forall i, length (fst (for_each_enum f i objs)) = length objs.
Proof.
  induction objs as [| b rest IH]; intros i; simpl; [reflexivity |].
  destruct (f i b) as [b' | e]; [| reflexivity].
  specialize (IH (i + 1)).
  destruct (for_each_enum f (i + 1) rest) as [rest' r]. simpl in *.
  now rewrite IH.
Qed.

Lemma for_each_length {B} (f : B -> result B) (objs : list B) :
  length (fst (for_each f objs)) = length objs.
Proof. apply for_each_enum_length. Qed.

(** X1.  No method of a table adds or removes a per-channel object: after
    [setSize] and [replace] of [HarmTable], [HannTable] and [LinTable] and
    after [setSound] of [SndTable], returned or raised, the table has as
    many channels as before. *)
Theorem methods_keep_channel_count :
  (forall n lst (t : HarmTable.HarmTable),
      length (HarmTable._base_objs (fst (HarmTable.setSize n t)))
      = length (HarmTable._base_objs t)
      /\ length (HarmTable._base_objs (fst (HarmTable.replace lst t)))
         = length (HarmTable._base_objs t))
  /\ (forall n (t : HannTable.HannTable),
        length (HannTable._base_objs (fst (HannTable.setSize n t)))
        = length (HannTable._base_objs t))
  /\ (forall resize_points n lst (t : LinTable.LinTable),
        length (LinTable._base_objs (fst (LinTable.setSize resize_points n t)))
        = length (LinTable._base_objs t)
        /\ length (LinTable._base_objs (fst (LinTable.replace lst t)))
           = length (LinTable._base_objs t))
  /\ (forall fs path (t : SndTable.SndTable),
        length (SndTable._base_objs (fst (SndTable.setSound fs path t)))
        = length (SndTable._base_objs t)).
Proof.
  split; [| split; [| split]].
  - intros n lst t. split.
    + unfold HarmTable.setSize, mbind, HarmTable.set_size, HarmTable.each_base.
      simpl. pose proof (for_each_length (HarmTable.base_setSize n)
                           (HarmTable._base_objs t)) as H.
      destruct (for_each _ _) as [objs r]. destruct r; exact H.
    + unfold HarmTable.replace, mbind, HarmTable.set_list, HarmTable.each_base.
      simpl. pose proof (for_each_length (HarmTable.base_replace lst)
                           (HarmTable._base_objs t)) as H.
      destruct (for_each _ _) as [objs r]. destruct r; exact H.
  - intros n t.
    unfold HannTable.setSize, mbind, HannTable.set_size, HannTable.each_base.
    simpl. pose proof (for_each_length (HannTable.base_setSize n)
                         (HannTable._base_objs t)) as H.
    destruct (for_each _ _) as [objs r]. destruct r; exact H.
  - intros rp n lst t. split.
    + unfold LinTable.setSize, mbind, LinTable.set_size, LinTable.each_base.
      simpl. pose proof (for_each_length (LinTable.base_setSize rp n)
                           (LinTable._base_objs t)) as H.
      destruct (for_each _ _) as [objs r]. destruct r; exact H.
    + unfold LinTable.replace, mbind, LinTable.set_list, LinTable.each_base.
      simpl. pose proof (for_each_length (LinTable.base_replace lst)
                           (LinTable._base_objs t)) as H.
      destruct (for_each _ _) as [objs r]. destruct r; exact H.
  - intros fs path t. unfold SndTable.setSound.
    destruct (SndTable.sndinfo fs path) as [[[sz sr] ch] | e]; [| reflexivity].
    match goal with
    | |- context [for_each_enum ?f 0 ?l] =>
        pose proof (for_each_enum_length f l 0) as H;
        destruct (for_each_enum f 0 l) as [objs r]
    end.
    exact H.
Qed.

End ChannelFacts.

(** ** SndTable: building, loading again, failing *)

Module SndTableMore.
Import SndTable.

Lemma mk_eta (t : SndTable) :
  mk (_size t) (_snd_sr t) (_snd_chnls t) (_base_objs t) = t.
Proof. now destruct t. Qed.

Lemma holds_unique (path : string) (f : soundfile) (c : Z)
  (b1 b2 : SndTable_base) :
  holds path f c b1 -> holds path f c b2 -> b1 = b2.
Proof.
  intros (Hp1 & Hc1 & Hs1 & Hr1 & _ & Hd1) (Hp2 & Hc2 & Hs2 & Hr2 & _ & Hd2).
  destruct b1, b2. simpl in *. subst.
  rewrite Hd1 in Hd2. now injection Hd2 as ->.
Qed.

Lemma chnls_positive (f : soundfile) :
  sf_channels f <> [] -> 0 < sf_chnls f.
Proof.
  unfold sf_chnls. destruct (sf_channels f); [contradiction | simpl; lia].
Qed.

Section Files.

Variable fs : string -> option soundfile.

Lemma setSound_missing (path : string) (t : SndTable) :
  fs path = None -> setSound fs path t = (t, Raise ResourceError).
Proof. intros Hf. unfold setSound, sndinfo. now rewrite Hf. Qed.

Lemma setSound_no_channel (path : string) (f : soundfile) (t : SndTable) :
  fs path = Some f ->
  sf_channels f = [] ->
  _base_objs t <> [] ->
  setSound fs path t = (t, Raise ZeroDivisionError).
Proof.
  intros Hf Hch Hne. unfold setSound, sndinfo. rewrite Hf.
  destruct t as [sz sr ch [| b rest]]; [contradiction |]. simpl.
  unfold py_mod, sf_chnls. rewrite Hch. reflexivity.
Qed.

Lemma setSound_nothing_to_load (path : string) (f : soundfile) (t : SndTable) :
  fs path = Some f ->
  _base_objs t = [] ->
  setSound fs path t = (t, Ok tt).
Proof.
  intros Hf He. unfold setSound, sndinfo. rewrite Hf, He. simpl.
  rewrite <- He. now rewrite mk_eta.
Qed.

Lemma setSound_returns (path : string) (f : soundfile) (t : SndTable) :
  fs path = Some f ->
  sf_channels f <> [] ->
  snd (setSound fs path t) = Ok tt.
Proof.
  intros Hf Hne.
  destruct (SndTableFacts.setSound_loads fs path f t Hf Hne)
    as (objs' & -> & _). reflexivity.
Qed.

(** X2.  What [setSound] gives back.  A path that does not decode raises
    [ResourceError]; a file without a channel raises [ZeroDivisionError]
    when the table has a channel and does nothing when it has none; a file
    with a channel always loads.  A call that raised has left the table,
    with all its per-channel objects, exactly as it was. *)
Theorem SndTable_setSound_outcomes (path : string) (t : SndTable) :
  (fs path = None -> setSound fs path t = (t, Raise ResourceError))
  /\ (forall f, fs path = Some f -> sf_channels f = [] ->
        _base_objs t <> [] ->
        setSound fs path t = (t, Raise ZeroDivisionError))
  /\ (forall f, fs path = Some f -> sf_channels f = [] ->
        _base_objs t = [] ->
        setSound fs path t = (t, Ok tt))
  /\ (forall f, fs path = Some f -> sf_channels f <> [] ->
        snd (setSound fs path t) = Ok tt)
  /\ (snd (setSound fs path t) <> Ok tt -> fst (setSound fs path t) = t).
Proof.
  split; [apply setSound_missing |].
  split; [intros f; apply setSound_no_channel |].
  split; [intros f Hf _; now apply (setSound_nothing_to_load path f) |].
  split; [intros f; apply setSound_returns |].
  intros Hraise. destruct (fs path) as [f |] eqn:Hf.
  - destruct (sf_channels f) as [| ch chs] eqn:Hch.
    + destruct (_base_objs t) as [| b rest] eqn:Hobjs.
      * now rewrite (setSound_nothing_to_load path f).
      * rewrite (setSound_no_channel path f); [reflexivity | | |]; try easy.
        rewrite Hobjs. discriminate.
    + exfalso. apply Hraise. apply (setSound_returns path f); [exact Hf |].
      rewrite Hch. discriminate.
  - now rewrite setSound_missing.
Qed.

Lemma new_bases_in_range (path : string) (f : soundfile) :
  fs path = Some f ->
  forall chnls,
    Forall (fun c => 0 <= c < sf_chnls f) chnls ->
    exists bs,
      new_bases fs path chnls = Ok bs
      /\ Forall2 (holds path f) chnls bs.
Proof.
  intros Hf chnls Hall.
  assert (Hex : exists bs, new_bases fs path chnls = Ok bs).
  { induction Hall as [| c rest Hc _ [bs IH]]; simpl.
    - eauto.
    - destruct (SndTableFacts.base_new_in_range fs path f c Hf Hc) as [b ->].
      rewrite IH. eauto. }
  destruct Hex as [bs Hbs]. exists bs. split; [exact Hbs |].
  now apply (SndTableFacts.new_bases_hold fs path f Hf).
Qed.

Lemma range_in_range (n : Z) : Forall (fun c => 0 <= c < n) (range n).
Proof.
  apply Forall_forall. intros c Hc. unfold range in Hc.
  apply list_elem_of_In, in_map_iff in Hc. destruct Hc as (k & <- & Hk).
  apply in_seq in Hk. lia.
Qed.

(** X3.  [SndTable(path)] on a file that decodes has one per-channel object
    for every channel of the file, the object at position [i] holding
    channel [i]; [SndTable(path, c)] for a channel [c] of the file has one
    object, holding channel [c].  Both keep the frame count, the sample
    rate and the channel count of the file. *)
Theorem SndTable_init_channels (path : string) (f : soundfile) :
  fs path = Some f ->
  (exists t,
      __init__ fs path None = Ok t
      /\ metadata t = (sf_frames f, sf_sr f, sf_chnls f)
      /\ length (_base_objs t) = length (sf_channels f)
      /\ forall (i : nat) b,
           _base_objs t !! i = Some b -> holds path f (Z.of_nat i) b)
  /\ (forall c,
        0 <= c < sf_chnls f ->
        exists t b,
          __init__ fs path (Some c) = Ok t
          /\ metadata t = (sf_frames f, sf_sr f, sf_chnls f)
          /\ _base_objs t = [b]
          /\ holds path f c b).
Proof.
  intros Hf. split.
  - destruct (new_bases_in_range path f Hf (range (sf_chnls f))
                (range_in_range _)) as (bs & Hbs & Hall).
    unfold __init__, sndinfo. rewrite Hf, Hbs.
    eexists. split; [reflexivity |]. split; [reflexivity |]. simpl.
    split.
    + rewrite <- (Forall2_length _ _ _ Hall), range_length.
      unfold sf_chnls. lia.
    + intros i b Hb.
      destruct (Forall2_lookup_r _ _ _ i b Hall Hb) as (c & Hc & Hh).
      assert (Hi : (i < length (range (sf_chnls f)))%nat)
        by (eapply lookup_lt_Some; eauto).
      rewrite range_length in Hi.
      replace i with (Z.to_nat (Z.of_nat i)) in Hc by lia.
      rewrite range_lookup in Hc by lia. now injection Hc as <-.
  - intros c Hc.
    destruct (new_bases_in_range path f Hf [c]) as (bs & Hbs & Hall).
    { now constructor. }
    unfold __init__, sndinfo. rewrite Hf, Hbs.
    inversion Hall as [| c' b cs bs' Hh Hnil]; subst.
    inversion Hnil; subst.
    exists (mk (sf_frames f) (sf_sr f) (sf_chnls f) [b]), b.
    split; [reflexivity |]. split; [reflexivity |].
    split; [reflexivity | exact Hh].
Qed.

(** Loading again the channels [k, k+1, ...] that [new_bases] loaded gives
    the same objects, as long as they are channels of the file. *)
Lemma reload_same (path : string) (f : soundfile) :
  fs path = Some f ->
  forall (m k : nat) bs,
    Z.of_nat (k + m) <= sf_chnls f ->
    new_bases fs path (map Z.of_nat (seq k m)) = Ok bs ->
    for_each_enum
      (fun i obj =>
         match py_mod i (sf_chnls f) with
         | Raise e => Raise e
         | Ok c => base_setSound fs path c obj
         end) (Z.of_nat k) bs = (bs, Ok tt).
Proof.
  intros Hf. induction m as [| m IH]; intros k bs Hk; simpl.
  - now intros [= <-].
  - destruct (SndTable_base_new fs path (Z.of_nat k)) as [b |] eqn:Hb;
      [| discriminate].
    destruct (new_bases fs path (map Z.of_nat (seq (S k) m))) as [bs' |] eqn:Hbs;
      [| discriminate].
    intros [= <-]. simpl.
    unfold py_mod at 1. destruct (Z.eqb_spec (sf_chnls f) 0); [lia |].
    rewrite Z.mod_small by lia. unfold base_setSound at 1. rewrite Hb.
    replace (Z.of_nat k + 1) with (Z.of_nat (S k)) by lia.
    rewrite (IH (S k) bs'); [reflexivity | lia | exact Hbs].
Qed.

(** X4.  A table built from all the channels of a file is not changed by
    [setSound] of the same path: the call returns and every attribute and
    every per-channel object is what it was. *)
Theorem SndTable_reload_identity (path : string) (t : SndTable) :
  __init__ fs path None = Ok t ->
  setSound fs path t = (t, Ok tt).
Proof.
  unfold __init__, setSound, sndinfo.
  destruct (fs path) as [f |] eqn:Hf; [| discriminate].
  destruct (new_bases fs path (range (sf_chnls f))) as [bs |] eqn:Hbs;
    [| discriminate].
  intros [= <-]. simpl.
  unfold range in Hbs.
  assert (Hre := reload_same path f Hf (Z.to_nat (sf_chnls f)) 0%nat bs).
  change (Z.of_nat 0) with 0 in Hre. rewrite Hre.
  - reflexivity.
  - unfold sf_chnls. lia.
  - exact Hbs.
Qed.

(** X5.  The channel chosen at construction is not remembered: after
    [setSound] of a file with a channel, a table built as
    [SndTable(path0, c)] holds channel 0 of the new file in its only
    per-channel object, whatever [c] was. *)
Theorem SndTable_selected_channel_forgotten
  (path0 : string) (c : Z) (t : SndTable) (path : string) (f : soundfile) :
  __init__ fs path0 (Some c) = Ok t ->
  fs path = Some f ->
  sf_channels f <> [] ->
  exists b',
    setSound fs path t
    = (mk (_size t) (_snd_sr t) (_snd_chnls t) [b'], Ok tt)
    /\ holds path f 0 b'.
Proof.
  intros Hinit Hf Hne.
  assert (Hone : length (_base_objs t) = 1%nat).
  { unfold __init__ in Hinit.
    destruct (sndinfo fs path0) as [[[sz sr] ch] | e]; [| discriminate].
    simpl in Hinit.
    destruct (SndTable_base_new fs path0 c) as [b |]; [| discriminate].
    now injection Hinit as <-. }
  destruct (SndTableFacts.setSound_loads fs path f t Hf Hne)
    as (objs' & Heq & Hlen & Hall).
  rewrite Hone in Hlen.
  destruct objs' as [| b' [| b'' rest]]; try discriminate.
  exists b'. split; [exact Heq |].
  specialize (Hall 0%nat b' eq_refl).
  rewrite Z.mod_0_l in Hall; [exact Hall |].
  pose proof (chnls_positive f Hne). lia.
Qed.

(** X6.  [setSound] twice with the same path is [setSound] once: the second
    call gives the state and the outcome of the first. *)
Theorem SndTable_setSound_idempotent (path : string) (t : SndTable) :
  setSound fs path (fst (setSound fs path t)) = setSound fs path t.
Proof.
  destruct (fs path) as [f |] eqn:Hf.
  - destruct (sf_channels f) as [| ch chs] eqn:Hch.
    + destruct (_base_objs t) as [| b rest] eqn:Hobjs.
      * pose proof (setSound_nothing_to_load path f t Hf Hobjs) as H.
        rewrite H. simpl. exact H.
      * assert (Hne : _base_objs t <> []) by (rewrite Hobjs; discriminate).
        pose proof (setSound_no_channel path f t Hf Hch Hne) as H.
        rewrite H. simpl. exact H.
    + assert (Hne : sf_channels f <> []) by (rewrite Hch; discriminate).
      destruct (SndTableFacts.setSound_loads fs path f t Hf Hne)
        as (objs1 & Heq1 & Hlen1 & Hall1).
      rewrite Heq1. simpl.
      destruct (SndTableFacts.setSound_loads fs path f
                  (mk (_size t) (_snd_sr t) (_snd_chnls t) objs1) Hf Hne)
        as (objs2 & Heq2 & Hlen2 & Hall2).
      rewrite Heq2. simpl in *. f_equal. f_equal.
      apply (list_eq_same_length objs2 objs1 (length objs1));
        [reflexivity | lia |].
      intros i b2 b1 _ Hb2 Hb1.
      apply (holds_unique path f (Z.of_nat i mod sf_chnls f)); auto.
  - pose proof (setSound_missing path t Hf) as H.
    rewrite H. simpl. exact H.
Qed.

End Files.

(** The stereo file decodes. *)
Lemma SndTable_init_channels_witness :
  disk "stereo.wav" = Some stereo
  /\ __init__ disk "stereo.wav" None = Ok stereo_table
  /\ map base_data (_base_objs stereo_table) = sf_channels stereo
  /\ exists t b,
      __init__ disk "stereo.wav" (Some 1) = Ok t
      /\ _base_objs t = [b]
      /\ holds "stereo.wav" stereo 1 b.
Proof.
  split; [reflexivity |]. split; [reflexivity |]. split; [reflexivity |].
  destruct (SndTable_init_channels disk "stereo.wav" stereo eq_refl)
    as [_ Hone].
  destruct (Hone 1 ltac:(unfold sf_chnls; simpl; lia))
    as (t & b & Hinit & _ & Hobjs & Hh).
  exists t, b. split; [exact Hinit |]. split; [exact Hobjs |]. exact Hh.
Defined.

(** [SndTable("stereo.wav").setSound("stereo.wav")] *)
Lemma SndTable_reload_identity_witness :
  __init__ disk "stereo.wav" None = Ok stereo_table
  /\ setSound disk "stereo.wav" stereo_table = (stereo_table, Ok tt).
Proof.
  split; [reflexivity |].
  exact (SndTable_reload_identity disk "stereo.wav" stereo_table eq_refl).
Defined.

(** [SndTable("stereo.wav", 1)] holds the second channel; after
    [setSound("stereo.wav")] it holds the first. *)
Lemma SndTable_selected_channel_forgotten_witness :
  __init__ disk "stereo.wav" (Some 1)
  = Ok (mk 4 44100 2 [mkBase "stereo.wav" 1 4 44100 [1; 0; -1; 0]%R])
  /\ disk "stereo.wav" = Some stereo
  /\ sf_channels stereo <> []
  /\ exists b',
      setSound disk "stereo.wav"
        (mk 4 44100 2 [mkBase "stereo.wav" 1 4 44100 [1; 0; -1; 0]%R])
      = (mk 4 44100 2 [b'], Ok tt)
      /\ base_data b' = [0; 1; 0; -1]%R.
Proof.
  split; [reflexivity |]. split; [reflexivity |]. split; [discriminate |].
  destruct (SndTable_selected_channel_forgotten disk "stereo.wav" 1
              (mk 4 44100 2 [mkBase "stereo.wav" 1 4 44100 [1; 0; -1; 0]%R])
              "stereo.wav" stereo eq_refl eq_refl ltac:(discriminate))
    as (b' & Hset & Hh).
  exists b'. split; [exact Hset |].
  destruct Hh as (_ & _ & _ & _ & _ & Hd). simpl in Hd. now injection Hd as <-.
Defined.

End SndTableMore.

(** ** NewTable *)

Module NewTableFacts.
Import NewTable.

(** X7.  [NewTable(length, chnls)] has [chnls] per-channel objects (none
    when [chnls <= 0]), all built alike; [getSize], [getLength] and
    [getRate] answer for the first of them and leave the table as it is,
    and raise [IndexError] on a table without channel. *)
Theorem NewTable_channels
  (sr : R) (round : R -> Z) (length_ : R) (chnls : option Z) :
  let t := __init__ sr round length_ chnls in
  let n := default 1 chnls in
  let b := NewTable_base_new sr round length_ in
  length (_base_objs t) = Z.to_nat n
  /\ (forall (i : nat) b', _base_objs t !! i = Some b' -> b' = b)
  /\ (n <= 0 ->
      getSize t = (t, Raise IndexError)
      /\ getLength sr t = (t, Raise IndexError)
      /\ getRate sr t = (t, Raise IndexError))
  /\ (0 < n ->
      getSize t = (t, Ok (round (length_ * sr)%R))
      /\ getLength sr t = (t, Ok (IZR (round (length_ * sr)%R) / sr)%R)
      /\ getRate sr t = (t, Ok (sr / IZR (round (length_ * sr)%R))%R)).
Proof.
  intros t n b. subst t. unfold __init__. fold n. simpl.
  split; [now rewrite length_map, range_length |].
  split.
  { intros i b' Hb'. rewrite list_lookup_fmap in Hb'.
    destruct (range n !! i); simpl in Hb'; [| discriminate].
    now injection Hb' as <-. }
  unfold getSize, getLength, getRate, first_channel, range. simpl.
  split; intros Hn.
  - replace (Z.to_nat n) with 0%nat by lia. simpl. repeat split.
  - destruct (Z.to_nat n) as [| k] eqn:Hk; [lia |]. simpl. repeat split.
Qed.

End NewTableFacts.

(** ** TableRec: one fader for each recorder *)

Module TableRecMore.
Import TableRec.

(** X8.  Two recorders built one after the other, on whatever tables, do
    not share their fader: [setInput] on the first gives the first fader
    its new source and leaves the fader of the second, and so what the
    per-channel recorders of the second read, as it was. *)
Theorem TableRec_faders_not_shared
  (in1 in2 x : PyoObject) (tb1 tb2 : PyoTableObject)
  (ft1 ft2 ft : option R) (h : store) :
  let s1 := __init__ in1 tb1 ft1 h in
  let s2 := __init__ in2 tb2 ft2 (snd s1) in
  let r1 := fst s1 in
  let r2 := fst s2 in
  let h3 := snd (fst (setInput x ft (r1, snd s2))) in
  _in_fader r1 <> _in_fader r2
  /\ Forall (fun b => rec_input b = _in_fader r2) (_base_objs r2)
  /\ faders h3 !! _in_fader r2 = Some (InputFader_new in2)
  /\ faders h3 !! _in_fader r1
     = Some (InputFader_setInput x (default 0.05%R ft) (InputFader_new in1)).
Proof.
  simpl.
  set (l1 := fresh (dom (faders h))).
  set (m1 := <[l1 := InputFader_new in1]> (faders h)).
  set (l2 := fresh (dom m1)).
  assert (Hne : l1 <> l2).
  { intros Heq. apply (is_fresh (dom m1)). fold l2. rewrite <- Heq.
    unfold m1. rewrite dom_insert_L. set_solver. }
  split; [exact Hne |]. split.
  - apply Forall_forall. intros b Hb.
    apply list_elem_of_In, in_map_iff in Hb. now destruct Hb as (tb & <- & _).
  - split.
    + rewrite lookup_alter_ne by exact Hne. apply lookup_insert_eq.
    + rewrite lookup_alter_eq, lookup_insert_ne by auto.
      unfold m1. now rewrite lookup_insert_eq.
Qed.

End TableRecMore.

(** ** HarmTable: what a table is after any history *)

Module HarmTableMore.
Import HarmTable HarmTableLife.

Lemma for_each_all_raise {B} (f : B -> result B) (e : exn) (objs : list B) :
  (forall b, f b = Raise e) ->
  for_each f objs
  = (objs, match objs with [] => Ok tt | _ :: _ => Raise e end).
Proof.
  intros Hf. destruct objs as [| b rest]; [reflexivity |].
  now apply for_each_first_raises.
Qed.



Lemma setSize_state (n : Z) (t : HarmTable) :
  fst (setSize n t)
  = mk (_list t) n
       (if n <=? 0 then _base_objs t
        else map (fun b => mkBase (base_list b) n (generate (base_list b) n))
                 (_base_objs t)).
Proof.
  unfold setSize, mbind, set_size, each_base. simpl.
  destruct (Z.leb_spec n 0) as [Hn | Hn].
  - rewrite (for_each_all_raise _ ConfigurationError).
    + reflexivity.
    + intros b. unfold base_setSize.
      destruct (Z.leb_spec n 0); [reflexivity | lia].
  - rewrite (for_each_total _
               (fun b => mkBase (base_list b) n (generate (base_list b) n))).
    + reflexivity.
    + intros b. unfold base_setSize.
      destruct (Z.leb_spec n 0); [lia | reflexivity].
Qed.

Lemma replace_total (lst : list R) (t : HarmTable) :
  replace lst t
  = (mk lst (_size t)
        (map (fun b => mkBase lst (base_size b) (generate lst (base_size b)))
             (_base_objs t)),
     Ok tt).
Proof.
  unfold replace, mbind, set_list, each_base. simpl.
  now rewrite (for_each_total _
                 (fun b => mkBase lst (base_size b)
                             (generate lst (base_size b)))).
Qed.





(** X10.  On every [HarmTable], [setSize(n)] and [replace(lst)] leave the
    same table whichever is called first, also when [setSize] raises. *)
Theorem HarmTable_setSize_replace_commute
  (n : Z) (lst : list R) (t : HarmTable) :
  fst (setSize n (fst (replace lst t)))
  = fst (replace lst (fst (setSize n t))).
Proof.
  rewrite !replace_total, !setSize_state. simpl.
  f_equal. destruct (Z.leb_spec n 0); [reflexivity |].
  rewrite !map_map. reflexivity.
Qed.



End HarmTableMore.

(** ** LinTable: the points and the [list] property *)

Module LinTableMore.
Import LinTable LinTableLife.

Lemma increasing_above (locs : list Z) :
  forall prev l,
    increasing_from prev locs = true -> In l locs -> prev < l.
Proof.
  induction locs as [| l0 rest IH]; intros prev l Hinc Hin; [contradiction |].
  simpl in Hinc. apply andb_true_iff in Hinc as [Hlt Hinc].
  apply Z.ltb_lt in Hlt. destruct Hin as [-> | Hin]; [exact Hlt |].
  specialize (IH l0 l Hinc Hin). lia.
Qed.

Lemma interp_left (p0 p1 : point) : interp p0 p1 (fst p0) = snd p0.
Proof.
  unfold interp. rewrite Z.sub_diag. unfold Rdiv. simpl. ring.
Qed.

Lemma interp_right (p0 p1 : point) :
  fst p0 < fst p1 -> interp p0 p1 (fst p1) = snd p1.
Proof.
  intros Hlt. unfold interp.
  assert (IZR (fst p1 - fst p0) <> 0%R) by (apply not_0_IZR; lia).
  now field.
Qed.

Lemma segment_sample_hits (rest : list point) :
  forall (p0 q : point),
    increasing_from (fst p0) (locations rest) = true ->
    In q rest ->
    segment_sample p0 rest (fst q) = snd q.
Proof.
  induction rest as [| p1 rest IH]; intros p0 q Hinc Hin; [contradiction |].
  simpl in Hinc. apply andb_true_iff in Hinc as [Hlt Hinc].
  apply Z.ltb_lt in Hlt. simpl. destruct Hin as [-> | Hin].
  - destruct (Z.leb_spec (fst q) (fst q)); [| lia]. now apply interp_right.
  - assert (fst p1 < fst q).
    { apply (increasing_above (locations rest)); [exact Hinc |].
      unfold locations. now apply in_map. }
    destruct (Z.leb_spec (fst q) (fst p1)); [lia |]. now apply IH.
Qed.

Lemma lin_sample_hits (pts : list point) (q : point) :
  strictly_increasing (locations pts) = true ->
  In q pts ->
  lin_sample pts (fst q) = snd q.
Proof.
  destruct pts as [| p0 rest]; [contradiction |]. simpl.
  intros Hinc [-> | Hin].
  - destruct (Z.ltb_spec (fst q) (fst q)); [lia |].
    destruct rest as [| p1 rest]; simpl.
    + now rewrite Z.eqb_refl.
    + simpl in Hinc. apply andb_true_iff in Hinc as [Hlt _].
      apply Z.ltb_lt in Hlt.
      destruct (Z.leb_spec (fst q) (fst p1)); [| lia]. apply interp_left.
  - assert (fst p0 < fst q).
    { apply (increasing_above (locations rest)); [exact Hinc |].
      unfold locations. now apply in_map. }
    destruct (Z.ltb_spec (fst q) (fst p0)); [lia |].
    now apply segment_sample_hits.
Qed.

(** X12.  A [LinTable] built from valid points goes through every one of
    them: the buffer has [size] samples and the sample at the location of
    each point is the value of that point. *)
Theorem LinTable_points_hit (pts : list point) (size : Z) :
  0 < size ->
  valid_points pts size = true ->
  exists t buf,
    __init__ pts size = Ok t
    /\ buffers t = [buf]
    /\ length buf = Z.to_nat size
    /\ forall loc val, In (loc, val) pts -> sample_at buf loc = Some val.
Proof.
  intros Hsize Hv. unfold __init__, LinTable_base_new.
  destruct (Z.leb_spec size 0); [lia |]. rewrite Hv.
  eexists. eexists. split; [reflexivity |]. split; [reflexivity |].
  simpl. split; [unfold render; now rewrite length_map, range_length |].
  intros loc val Hin.
  apply andb_true_iff in Hv as [Hr Hinc].
  rewrite forallb_forall in Hr.
  assert (Hloc : in_range size loc = true).
  { apply Hr. unfold locations.
    change loc with (fst (loc, val)). now apply in_map. }
  unfold in_range in Hloc. apply andb_true_iff in Hloc as [H0 H1].
  apply Z.leb_le in H0, H1.
  unfold render. rewrite sample_at_map by lia. f_equal.
  exact (lin_sample_hits pts (loc, val) Hinc Hin).
Qed.

(** A triangle over 9 samples. *)
Lemma LinTable_points_hit_witness :
  0 < 9
  /\ valid_points [(0, 0%R); (4, 1%R); (8, 0%R)] 9 = true
  /\ exists t buf,
      __init__ [(0, 0%R); (4, 1%R); (8, 0%R)] 9 = Ok t
      /\ buffers t = [buf]
      /\ sample_at buf 0 = Some 0%R
      /\ sample_at buf 4 = Some 1%R
      /\ sample_at buf 8 = Some 0%R.
Proof.
  split; [lia |]. split; [reflexivity |].
  destruct (LinTable_points_hit [(0, 0%R); (4, 1%R); (8, 0%R)] 9
              ltac:(lia) eq_refl)
    as (t & buf & Hinit & Hbuf & _ & Hhit).
  exists t, buf. split; [exact Hinit |]. split; [exact Hbuf |].
  repeat split; apply Hhit; simpl; tauto.
Defined.

(** X13.  Assigning valid points to the [list] property of a [LinTable]
    and reading the property gives the points back; the channel is drawn
    again from them and [size] is not changed. *)
Theorem LinTable_list_round_trip
  (lst : list point) (t : LinTable) (b : LinTable_base) :
  _base_objs t = [b] ->
  valid_points lst (base_size b) = true ->
  exists t',
    list_setter lst t = (t', Ok tt)
    /\ list_getter t' = (t', Ok lst)
    /\ buffers t' = [render lst (base_size b)]
    /\ size t' = size t.
Proof.
  intros Hobjs Hv.
  unfold list_setter, replace, mbind, set_list, each_base. simpl.
  rewrite Hobjs. unfold for_each. simpl.
  unfold base_replace. rewrite Hv.
  eexists. split; [reflexivity |]. repeat split.
Qed.

(** X14.  Assigning points that are not valid to the [list] property
    raises [ConfigurationError]; the channel and the points that the
    property reads are those of before, while the [_list] attribute holds
    the refused points. *)
Theorem LinTable_list_refused
  (lst : list point) (t : LinTable) (b : LinTable_base) :
  _base_objs t = [b] ->
  valid_points lst (base_size b) = false ->
  exists t',
    list_setter lst t = (t', Raise ConfigurationError)
    /\ list_getter t' = (t', Ok (base_points b))
    /\ _list t' = Some lst
    /\ _base_objs t' = _base_objs t.
Proof.
  intros Hobjs Hv.
  unfold list_setter, replace, mbind, set_list, each_base. simpl.
  rewrite Hobjs. unfold for_each. simpl.
  unfold base_replace. rewrite Hv.
  eexists. split; [reflexivity |]. repeat split.
Qed.

(** The table of the ramp [(0, 0), (7, 1)] over 8 samples. *)
Lemma LinTable_list_round_trip_witness :
  __init__ [(0, 0%R); (7, 1%R)] 8
  = Ok (mk None 8 [mkBase [(0, 0%R); (7, 1%R)] 8
                     (render [(0, 0%R); (7, 1%R)] 8)])
  /\ valid_points [(0, 1%R); (3, 0%R)] 8 = true
  /\ exists t',
      list_setter [(0, 1%R); (3, 0%R)]
        (mk None 8 [mkBase [(0, 0%R); (7, 1%R)] 8
                      (render [(0, 0%R); (7, 1%R)] 8)])
      = (t', Ok tt)
      /\ list_getter t' = (t', Ok [(0, 1%R); (3, 0%R)]).
Proof.
  split; [reflexivity |]. split; [reflexivity |].
  destruct (LinTable_list_round_trip [(0, 1%R); (3, 0%R)]
              (mk None 8 [mkBase [(0, 0%R); (7, 1%R)] 8
                            (render [(0, 0%R); (7, 1%R)] 8)])
              _ eq_refl eq_refl)
    as (t' & Hset & Hget & _).
  exists t'. split; [exact Hset | exact Hget].
Defined.

(** The same table refuses a point at location 8. *)
Lemma LinTable_list_refused_witness :
  valid_points [(0, 1%R); (8, 0%R)] 8 = false
  /\ exists t',
      list_setter [(0, 1%R); (8, 0%R)]
        (mk None 8 [mkBase [(0, 0%R); (7, 1%R)] 8
                      (render [(0, 0%R); (7, 1%R)] 8)])
      = (t', Raise ConfigurationError)
      /\ list_getter t' = (t', Ok [(0, 0%R); (7, 1%R)])
      /\ _list t' = Some [(0, 1%R); (8, 0%R)].
Proof.
  split; [reflexivity |].
  destruct (LinTable_list_refused [(0, 1%R); (8, 0%R)]
              (mk None 8 [mkBase [(0, 0%R); (7, 1%R)] 8
                            (render [(0, 0%R); (7, 1%R)] 8)])
              _ eq_refl eq_refl)
    as (t' & Hset & Hget & Hlist & _).
  exists t'. split; [exact Hset |]. split; [exact Hget | exact Hlist].
Defined.

End LinTableMore.

(** ** HannTable: resizing *)

Module HannTableMore.
Import HannTable.

Lemma hann_length (n : Z) : 0 < n -> length (hann n) = Z.to_nat n.
Proof.
  intros Hn. unfold hann. destruct (Z.eqb_spec n 1) as [-> | _].
  - reflexivity.
  - now rewrite length_map, range_length.
Qed.

(** X15.  [setSize(n)] with [n > 0] on a [HannTable] leaves the table that
    [HannTable(n)] builds, whatever its size was: one channel of [n]
    samples, and [size] reads [n]. *)
Theorem HannTable_resize_is_rebuild (n : Z) (t : HannTable) (b : HannTable_base) :
  _base_objs t = [b] ->
  0 < n ->
  exists t' buf,
    __init__ n = Ok t'
    /\ setSize n t = (t', Ok tt)
    /\ size t' = n
    /\ buffers t' = [buf]
    /\ length buf = Z.to_nat n.
Proof.
  intros Hobjs Hn. unfold __init__, HannTable_base_new.
  destruct (Z.leb_spec n 0); [lia |].
  eexists. eexists. split; [reflexivity |].
  unfold setSize, mbind, set_size, each_base. simpl. rewrite Hobjs.
  unfold for_each. simpl. unfold base_setSize.
  destruct (Z.leb_spec n 0); [lia |].
  split; [reflexivity |]. split; [reflexivity |]. split; [reflexivity |].
  now apply hann_length.
Qed.

(** [HannTable(8).setSize(4)] is [HannTable(4)]. *)
Lemma HannTable_resize_is_rebuild_witness :
  __init__ 8 = Ok (mk 8 [mkBase 8 (hann 8)])
  /\ 0 < 4
  /\ exists t',
      __init__ 4 = Ok t'
      /\ setSize 4 (mk 8 [mkBase 8 (hann 8)]) = (t', Ok tt)
      /\ size t' = 4.
Proof.
  split; [reflexivity |]. split; [lia |].
  destruct (HannTable_resize_is_rebuild 4 (mk 8 [mkBase 8 (hann 8)]) _
              eq_refl ltac:(lia))
    as (t' & buf & Hinit & Hset & Hsize & _).
  exists t'. split; [exact Hinit |]. split; [exact Hset | exact Hsize].
Defined.

End HannTableMore.
